(** * Line_Connect: the LINE to Dify relay of [main.py]

    A shallow embedding of the webhook relay: the Python values that travel
    through it, the text clean-up applied to the backend's answer, the
    session map [user_sessions], and the handlers as state-and-exception
    passing functions over an explicit model of the outside world (the LINE
    SDK and the [requests] library). *)

From Stdlib Require Import ZArith NArith Ascii String List Lia.
From stdpp Require Import base option list gmap strings.

Set Warnings "-register-all".
Local Open Scope Z_scope.

(** ** Text

    A Python [str] is held as the UTF-8 bytes of its characters, which is
    how the literals of [main.py] are stored in its source file. *)

Module Text.

(** [s.startswith(p)], returning what follows the prefix. *)
Fixpoint after_prefix (p s : string) : option string :=
  match p, s with
  | EmptyString, _ => Some s
  | String a p', String b s' =>
      if Ascii.eqb a b then after_prefix p' s' else None
  | String _ _, EmptyString => None
  end.

(** [s.partition(p)] at the first occurrence of [p]: the text before it and
    the text after it, or [None] when [p] does not occur. *)
Fixpoint partition (p s : string) : option (string * string) :=
  match after_prefix p s with
  | Some rest => Some (EmptyString, rest)
  | None =>
      match s with
      | EmptyString => None
      | String c s' =>
          match partition p s' with
          | Some (before, rest) => Some (String c before, rest)
          | None => None
          end
      end
  end.

(** [p in s]. *)
Definition contains (p s : string) : bool :=
  match partition p s with Some _ => true | None => false end.

(** [c in s]. *)
Fixpoint occurs (c : ascii) (s : string) : bool :=
  match s with
  | EmptyString => false
  | String a s' => Ascii.eqb c a || occurs c s'
  end.

Definition OPEN_TAG : string := "<think>".
Definition CLOSE_TAG : string := "</think>".

(** [re.sub(r'<think>.*?</think>', '', s, flags=re.DOTALL)].  The scan goes
    left to right: the leftmost match starts at the first [<think>] that has
    a [</think>] somewhere behind it, the lazy [.*?] (which, with [DOTALL],
    also crosses newlines) stops at the first such [</think>], and the scan
    resumes behind the match.  When the first [<think>] has no closing tag
    behind it, no later one has either.  Each match consumes at least the
    fifteen characters of the two tags, so [length s] rounds are enough. *)
Fixpoint re_sub_think_fuel (fuel : nat) (s : string) : string :=
  match fuel with
  | O => s
  | S fuel' =>
      match partition OPEN_TAG s with
      | None => s
      | Some (before, inner) =>
          match partition CLOSE_TAG inner with
          | None => s
          | Some (_, rest) => before +:+ re_sub_think_fuel fuel' rest
          end
      end
  end.

Definition re_sub_think (s : string) : string :=
  re_sub_think_fuel (String.length s) s.

(** The characters [str.strip()] removes: those for which [str.isspace()]
    holds.  One byte: U+0009..U+000D, U+001C..U+0020. *)
Definition space1 (a : ascii) : bool :=
  let n := N_of_ascii a in
  (((9 <=? n) && (n <=? 13)) || ((28 <=? n) && (n <=? 32)))%N.

(** Two bytes: U+0085 (C2 85) and U+00A0 (C2 A0). *)
Definition space2 (a b : ascii) : bool :=
  let x := N_of_ascii a in
  let y := N_of_ascii b in
  ((x =? 194) && ((y =? 133) || (y =? 160)))%N.

(** Three bytes: U+1680 (E1 9A 80), U+2000..U+200A (E2 80 80..8A),
    U+2028, U+2029 (E2 80 A8, A9), U+202F (E2 80 AF), U+205F (E2 81 9F)
    and U+3000 (E3 80 80). *)
Definition space3 (a b c : ascii) : bool :=
  let x := N_of_ascii a in
  let y := N_of_ascii b in
  let z := N_of_ascii c in
  (((x =? 225) && (y =? 154) && (z =? 128))
   || ((x =? 226) && (y =? 128)
       && (((128 <=? z) && (z <=? 138)) || (z =? 168) || (z =? 169) || (z =? 175)))
   || ((x =? 226) && (y =? 129) && (z =? 159))
   || ((x =? 227) && (y =? 128) && (z =? 128)))%N.

(** Drop the white space in front.  With [back] set the string is read in
    reverse, so the bytes of a character arrive last byte first. *)
Fixpoint drop_space (back : bool) (s : string) : string :=
  match s with
  | EmptyString => s
  | String a s1 =>
      if space1 a then drop_space back s1
      else
        match s1 with
        | EmptyString => s
        | String b s2 =>
            if (if back then space2 b a else space2 a b)
            then drop_space back s2
            else
              match s2 with
              | EmptyString => s
              | String c s3 =>
                  if (if back then space3 c b a else space3 a b c)
                  then drop_space back s3
                  else s
              end
        end
  end.

Definition lstrip (s : string) : string := drop_space false s.
Definition rstrip (s : string) : string :=
  String.rev (drop_space true (String.rev s)).

(** [s.strip()]. *)
Definition strip (s : string) : string := rstrip (lstrip s).

(** [s.rstrip('/')]. *)
Fixpoint drop_slashes (s : string) : string :=
  match s with
  | String "/"%char s' => drop_slashes s'
  | _ => s
  end.

Definition rstrip_slash (s : string) : string :=
  String.rev (drop_slashes (String.rev s)).

Definition in_range (lo hi : N) (a : ascii) : bool :=
  let n := N_of_ascii a in ((lo <=? n) && (n <=? hi))%N.

(** The second byte allowed behind the lead byte [a] of a three-byte and of
    a four-byte character: no overlong form, no surrogate, nothing above
    U+10FFFF. *)
Definition second3 (a b : ascii) : bool :=
  if in_range 224 224 a then in_range 160 191 b
  else if in_range 237 237 a then in_range 128 159 b
  else in_range 128 191 b.

Definition second4 (a b : ascii) : bool :=
  if in_range 240 240 a then in_range 144 191 b
  else if in_range 244 244 a then in_range 128 143 b
  else in_range 128 191 b.

Fixpoint utf8_valid (s : string) : bool :=
  match s with
  | EmptyString => true
  | String a s1 =>
      if in_range 0 127 a then utf8_valid s1
      else
        match s1 with
        | EmptyString => false
        | String b s2 =>
            if in_range 194 223 a then in_range 128 191 b && utf8_valid s2
            else
              match s2 with
              | EmptyString => false
              | String c s3 =>
                  if in_range 224 239 a
                  then second3 a b && in_range 128 191 c && utf8_valid s3
                  else
                    match s3 with
                    | EmptyString => false
                    | String d s4 =>
                        in_range 240 244 a && second4 a b
                        && in_range 128 191 c && in_range 128 191 d
                        && utf8_valid s4
                    end
              end
        end
  end.

(** [body.decode('utf-8')] on the raw bytes of a request body: the text,
    or [None] where Python raises [UnicodeDecodeError]. *)
Definition decode_utf8 (body : string) : option string :=
  if utf8_valid body then Some body else None.

End Text.

(** ** Python values

    The values that reach the relay from JSON documents and that it puts
    into its own JSON payloads.  A [dict] keeps its items in insertion
    order, one item per key; numbers are the integers. *)

Inductive pyval : Type :=
| PNone
| PBool (b : bool)
| PInt (n : Z)
| PStr (s : string)
| PList (items : list pyval)
| PDict (items : list (string * pyval)).

(** Truth value of a value in [if v:]. *)
Definition truthy (v : pyval) : bool :=
  match v with
  | PNone => false
  | PBool b => b
  | PInt n => negb (n =? 0)
  | PStr s => negb (String.eqb s "")
  | PList items => match items with [] => false | _ :: _ => true end
  | PDict items => match items with [] => false | _ :: _ => true end
  end.

(** [d.get(k)] on the items of a dict. *)
Fixpoint dict_get (k : string) (d : list (string * pyval)) : option pyval :=
  match d with
  | [] => None
  | (k', v) :: d' => if String.eqb k k' then Some v else dict_get k d'
  end.

(** [d[k] = v]: the value of an existing key is replaced in place, a new
    key goes to the end. *)
Fixpoint dict_set (k : string) (v : pyval) (d : list (string * pyval))
  : list (string * pyval) :=
  match d with
  | [] => [(k, v)]
  | (k', v') :: d' =>
      if String.eqb k k' then (k, v) :: d' else (k', v') :: dict_set k v d'
  end.

(** ** The outside world *)

(** Webhook events as the LINE SDK hands them to the handlers. *)
Inductive message_content : Type :=
| TextMessageContent (id text : string)
| ImageMessageContent (id : string)
| VideoMessageContent (id : string)
| AudioMessageContent (id : string)
| OtherMessageContent (id type : string).

Inductive event : Type :=
| MessageEvent (user_id reply_token : string) (message : message_content)
| OtherEvent.

(** [event.message.id] and [event.message.type]. *)
Definition message_id (m : message_content) : string :=
  match m with
  | TextMessageContent id _ => id
  | ImageMessageContent id => id
  | VideoMessageContent id => id
  | AudioMessageContent id => id
  | OtherMessageContent id _ => id
  end.

Definition message_type (m : message_content) : string :=
  match m with
  | TextMessageContent _ _ => "text"
  | ImageMessageContent _ => "image"
  | VideoMessageContent _ => "video"
  | AudioMessageContent _ => "audio"
  | OtherMessageContent _ type => type
  end.

(** What [requests.post] is called with, for the multipart upload and for
    the JSON chat message. *)
Record upload_request : Type := {
  upload_url : string;
  upload_headers : list (string * string);
  upload_filename : string;
  upload_content : list Byte.byte;
  upload_content_type : string;
  upload_user : string
}.

Record chat_request : Type := {
  chat_url : string;
  chat_headers : list (string * string);
  chat_json : pyval
}.

(** What [requests.post] returns when it returns: the status code and the
    body as [response.json()] decodes it ([None] when it is not JSON). *)
Record response : Type := {
  status_code : Z;
  json : option pyval
}.

(** Everything the relay does to the outside, and each write to
    [user_sessions], in program order and with the outcome observed. *)
Inductive effect : Type :=
| GetContent (message_id : string) (content : option (list Byte.byte))
| PostUpload (request : upload_request) (outcome : option response)
| PostChat (request : chat_request) (outcome : option response)
| SessionWrite (user_id : string) (token : pyval)
| Reply (reply_token text : string) (sent : bool).

(** The environment: the configuration read at start-up, the LINE SDK and
    the two HTTP endpoints of the backend.  An outcome may depend on all
    that happened before.  [None] from [get_message_content] or from a post
    and [false] from [reply_message] stand for the call raising. *)
Record world : Type := {
  DIFY_API_KEY : string;
  DIFY_API_URL : string;
  signature_validator : string -> string -> bool;
  parse : string -> option (list event);
  get_message_content : list effect -> string -> option (list Byte.byte);
  reply_message : list effect -> string -> string -> bool;
  post_upload : list effect -> upload_request -> option response;
  post_chat : list effect -> chat_request -> option response
}.

(** ** State, exceptions and the monad of the handlers *)

Record state : Type := {
  user_sessions : gmap string pyval;
  log : list effect
}.

Inductive exn : Type :=
| InvalidSignatureError
| HTTPException (status : Z) (detail : string)
| UnicodeDecodeError
| ParseError
| ApiException
| RequestException
| HTTPError (status : Z)
| JSONDecodeError
| AttributeError
| TypeError.

Inductive result (A : Type) : Type :=
| Return (a : A)
| Raise (e : exn).
Arguments Return {A} a.
Arguments Raise {A} e.

Definition M (A : Type) : Type := state -> result A * state.

Definition ret {A} (a : A) : M A := fun s => (Return a, s).
Definition raise {A} (e : exn) : M A := fun s => (Raise e, s).
Definition bind {A B} (m : M A) (k : A -> M B) : M B :=
  fun s => match m s with
           | (Return a, s') => k a s'
           | (Raise e, s') => (Raise e, s')
           end.

(** [try: body / except Exception as e: handler e].  Every [exn] here is a
    subclass of [Exception]. *)
Definition try_except {A} (body : M A) (handler : exn -> M A) : M A :=
  fun s => match body s with
           | (Return a, s') => (Return a, s')
           | (Raise e, s') => handler e s'
           end.

Notation "'let!' x ':=' m 'in' k" := (bind m (fun x => k))
  (at level 10, x pattern, m at level 100, k at level 200).
Notation "'run!' m 'in' k" := (bind m (fun _ => k))
  (at level 10, m at level 100, k at level 200).

Definition record (e : effect) (s : state) : state :=
  {| user_sessions := user_sessions s; log := log s ++ [e] |}.

(** [user_sessions.get(user_id, "")]. *)
Definition session_get (user_id : string) : M pyval :=
  fun s => (Return (default (PStr "") (user_sessions s !! user_id)), s).

(** [user_sessions[user_id] = token]. *)
Definition session_set (user_id : string) (token : pyval) : M unit :=
  fun s => (Return tt,
            {| user_sessions := <[user_id := token]> (user_sessions s);
               log := log s ++ [SessionWrite user_id token] |}).

(** The statuses [response.raise_for_status()] raises for: 4xx and 5xx. *)
Definition error_status (r : response) : bool :=
  (400 <=? status_code r) && (status_code r <? 600).

(** [response.raise_for_status()]. *)
Definition raise_for_status (r : response) : M unit :=
  if error_status r then raise (HTTPError (status_code r)) else ret tt.

(** [response.json()]. *)
Definition response_json (r : response) : M pyval :=
  match json r with
  | Some v => ret v
  | None => raise JSONDecodeError
  end.

(** [obj.get(key, fallback)]: only a dict has the method. *)
Definition py_get (obj : pyval) (key : string) (fallback : pyval) : M pyval :=
  match obj with
  | PDict items => ret (default fallback (dict_get key items))
  | _ => raise AttributeError
  end.

(** [re.sub(r'<think>.*?</think>', '', answer, flags=re.DOTALL).strip()]:
    [re.sub] takes a [str] only. *)
Definition clean_answer (answer : pyval) : M string :=
  match answer with
  | PStr s => ret (Text.strip (Text.re_sub_think s))
  | _ => raise TypeError
  end.

(** The three texts the relay answers with when something went wrong. *)
Definition APOLOGY : string := "ขออภัย ระบบขัดข้องชั่วคราว".
Definition UPLOAD_APOLOGY : string := "ขออภัย ไม่สามารถอัปโหลดไฟล์ไปยัง AI ได้".
Definition FILE_APOLOGY : string := "ขออภัย เกิดข้อผิดพลาดในการประมวลผลไฟล์".

(** ** The relay *)

Section Relay.

Variable w : world.

(** [line_bot_blob_api.get_message_content(message_id)]. *)
Definition line_get_message_content (message_id : string) : M (list Byte.byte) :=
  fun s =>
    let content := get_message_content w (log s) message_id in
    let s' := record (GetContent message_id content) s in
    match content with
    | Some bytes => (Return bytes, s')
    | None => (Raise ApiException, s')
    end.

(** [requests.post(api_url, headers=headers, files=files, data=data)]. *)
Definition requests_post_upload (request : upload_request) : M response :=
  fun s =>
    let outcome := post_upload w (log s) request in
    let s' := record (PostUpload request outcome) s in
    match outcome with
    | Some r => (Return r, s')
    | None => (Raise RequestException, s')
    end.

(** [requests.post(api_url, json=payload, headers=headers)]. *)
Definition requests_post_chat (request : chat_request) : M response :=
  fun s =>
    let outcome := post_chat w (log s) request in
    let s' := record (PostChat request outcome) s in
    match outcome with
    | Some r => (Return r, s')
    | None => (Raise RequestException, s')
    end.

Definition reply_text (reply_token text : string) : M unit :=
  fun s =>
    let sent := reply_message w (log s) reply_token text in
    let s' := record (Reply reply_token text sent) s in
    if sent then (Return tt, s') else (Raise ApiException, s').

(** The arguments of the [requests.post] of [upload_file_to_dify]. *)
Definition upload_call
    (file_content : list Byte.byte) (filename user_id : string)
  : upload_request :=
  {| upload_url := Text.rstrip_slash (DIFY_API_URL w) +:+ "/files/upload";
     upload_headers := [("Authorization", "Bearer " +:+ DIFY_API_KEY w)];
     upload_filename := filename;
     upload_content := file_content;
     upload_content_type := "application/octet-stream";
     upload_user := user_id |}.

Definition upload_file_to_dify
    (file_content : list Byte.byte) (filename user_id : string) : M pyval :=
  try_except
    (let! response :=
       requests_post_upload (upload_call file_content filename user_id) in
     run! raise_for_status response in
     let! body := response_json response in
     py_get body "id" PNone)
    (fun _ => ret PNone).

(** The [payload] dict of [call_dify_api]. *)
Definition payload (query user_id : string) (conversation_id file_id : pyval)
  : list (string * pyval) :=
  let payload :=
    [ ("inputs", PDict []);
      ("query", PStr query);
      ("response_mode", PStr "blocking");
      ("user", PStr user_id);
      ("files", PList []) ] in
  let payload :=
    if truthy conversation_id
    then dict_set "conversation_id" conversation_id payload
    else payload in
  if truthy file_id
  then dict_set "files"
         (PList [PDict [ ("type", PStr "image");
                         ("transfer_method", PStr "local_file");
                         ("upload_file_id", file_id) ]])
         payload
  else payload.

(** The arguments of the [requests.post] of [call_dify_api]. *)
Definition chat_call
    (query user_id : string) (conversation_id file_id : pyval)
  : chat_request :=
  {| chat_url := Text.rstrip_slash (DIFY_API_URL w) +:+ "/chat-messages";
     chat_headers :=
       [ ("Authorization", "Bearer " +:+ DIFY_API_KEY w);
         ("Content-Type", "application/json") ];
     chat_json := PDict (payload query user_id conversation_id file_id) |}.

Definition call_dify_api
    (query user_id : string) (conversation_id file_id : pyval)
  : M (string * pyval) :=
  try_except
    (let! response :=
       requests_post_chat
         (chat_call query user_id conversation_id file_id) in
     run! raise_for_status response in
     let! result := response_json response in
     let! answer := py_get result "answer" (PStr APOLOGY) in
     let! new_conversation_id := py_get result "conversation_id" (PStr "") in
     let! answer := clean_answer answer in
     ret (answer, new_conversation_id))
    (fun e => raise e).

Definition process_and_reply
    (reply_token query user_id : string) (conversation_id file_id : pyval)
  : M unit :=
  try_except
    (let! (dify_response, new_conversation_id) :=
       call_dify_api query user_id conversation_id file_id in
     run! (if truthy new_conversation_id
           then session_set user_id new_conversation_id
           else ret tt) in
     reply_text reply_token dify_response)
    (fun _ => reply_text reply_token APOLOGY).

(** [handle_text_message(event)], on the fields it reads from the event. *)
Definition handle_text_message (user_id user_message reply_token : string)
  : M unit :=
  let! conversation_id := session_get user_id in
  process_and_reply reply_token user_message user_id conversation_id PNone.

Definition extension_map : gmap string string :=
  {[ "image" := "jpg"; "video" := "mp4"; "audio" := "m4a" ]}.

(** [handle_file_message(event)], on the fields it reads from the event. *)
Definition handle_file_message
    (user_id reply_token message_id message_type : string) : M unit :=
  let! conversation_id := session_get user_id in
  try_except
    (let! file_content := line_get_message_content message_id in
     let extension := default "bin" (extension_map !! message_type) in
     let filename := message_id +:+ "." +:+ extension in
     let! dify_file_id := upload_file_to_dify file_content filename user_id in
     if truthy dify_file_id
     then process_and_reply reply_token ("[" +:+ message_type +:+ " uploaded]")
            user_id conversation_id dify_file_id
     else reply_text reply_token UPLOAD_APOLOGY)
    (fun _ => reply_text reply_token FILE_APOLOGY).

(** The handler registered for an event, as [WebhookHandler] looks it up:
    text messages and image, video and audio messages have one, no default
    handler is registered, and an event without handler is skipped. *)
Definition dispatch (e : event) : M unit :=
  match e with
  | MessageEvent user_id reply_token (TextMessageContent _ text) =>
      handle_text_message user_id text reply_token
  | MessageEvent user_id reply_token message =>
      match message with
      | ImageMessageContent _ | VideoMessageContent _ | AudioMessageContent _ =>
          handle_file_message user_id reply_token
            (message_id message) (message_type message)
      | _ => ret tt
      end
  | OtherEvent => ret tt
  end.

(** [for event in payload.events: ...]: an exception ends the loop. *)
Fixpoint dispatch_all (events : list event) : M unit :=
  match events with
  | [] => ret tt
  | e :: events' => run! dispatch e in dispatch_all events'
  end.

(** [handler.handle(body, signature)]: the signature is checked before the
    body is parsed. *)
Definition handle (body signature : string) : M unit :=
  if signature_validator w body signature
  then match parse w body with
       | Some events => dispatch_all events
       | None => raise ParseError
       end
  else raise InvalidSignatureError.

(** An inbound [POST /callback]: the [X-Line-Signature] header, when the
    request has one, and the raw body. *)
Record request : Type := {
  x_line_signature : option string;
  body : string
}.

Definition callback (request : request) : M string :=
  let signature := default "" (x_line_signature request) in
  let! body_str :=
    match Text.decode_utf8 (body request) with
    | Some text => ret text
    | None => raise UnicodeDecodeError
    end in
  run! (fun s =>
          match handle body_str signature s with
          | (Raise InvalidSignatureError, s') =>
              (Raise (HTTPException 400 "Invalid signature"), s')
          | other => other
          end) in
  ret "OK".

End Relay.

(** The status the web framework answers with: 200 when the route returns,
    the status of an [HTTPException], and 500 for any other exception. *)
Definition served_status (r : result string) : Z :=
  match r with
  | Return _ => 200
  | Raise (HTTPException status _) => status
  | Raise _ => 500
  end.

(** The process starts with [user_sessions = {}] and nothing done yet. *)
Definition initial : state := {| user_sessions := ∅; log := [] |}.

(** A run of the server: the requests are served one after the other, the
    state left by one (also by one that raised) is the state the next
    starts from. *)
Fixpoint serve (w : world) (requests : list request) (s : state) : state :=
  match requests with
  | [] => s
  | r :: requests' => serve w requests' (snd (callback w r s))
  end.


(** ** Reading the log *)

(** What [call_dify_api] makes of the outcome of its post. *)
Definition chat_result (outcome : option response) : result (string * pyval) :=
  match outcome with
  | None => Raise RequestException
  | Some r =>
      if error_status r then Raise (HTTPError (status_code r))
      else
        match json r with
        | None => Raise JSONDecodeError
        | Some (PDict items) =>
            match default (PStr APOLOGY) (dict_get "answer" items) with
            | PStr answer =>
                Return (Text.strip (Text.re_sub_think answer),
                        default (PStr "") (dict_get "conversation_id" items))
            | _ => Raise TypeError
            end
        | Some _ => Raise AttributeError
        end
  end.

(** What [upload_file_to_dify] makes of the outcome of its post. *)
Definition upload_result (outcome : option response) : pyval :=
  match outcome with
  | None => PNone
  | Some r =>
      if error_status r then PNone
      else
        match json r with
        | Some (PDict items) => default PNone (dict_get "id" items)
        | _ => PNone
        end
  end.

(** The upload failed, that is, the [try] block of [upload_file_to_dify]
    raised: [requests.post] did, or [raise_for_status] did, or the body is
    no JSON object. *)
Definition upload_failed (outcome : option response) : bool :=
  match outcome with
  | None => true
  | Some r =>
      error_status r
      || match json r with Some (PDict _) => false | _ => true end
  end.

(** The continuation token a chat response hands over: the non-empty
    [conversation_id] of a response [call_dify_api] returns from. *)
Definition token_returned (outcome : option response) : option pyval :=
  match chat_result outcome with
  | Return (_, conversation_id) =>
      if truthy conversation_id then Some conversation_id else None
  | Raise _ => None
  end.

(** The chat posts of a log, oldest first. *)
Definition chat_calls (l : list effect) : list (chat_request * option response) :=
  omap (fun e => match e with
                 | PostChat request outcome => Some (request, outcome)
                 | _ => None
                 end) l.

(** The [user] and the [conversation_id] of a chat post. *)
Definition sender_of (request : chat_request) : option string :=
  match chat_json request with
  | PDict items =>
      match dict_get "user" items with
      | Some (PStr user_id) => Some user_id
      | _ => None
      end
  | _ => None
  end.

Definition token_sent (request : chat_request) : option pyval :=
  match chat_json request with
  | PDict items => dict_get "conversation_id" items
  | _ => None
  end.

Definition is_chat (e : effect) : bool :=
  match e with PostChat _ _ => true | _ => false end.

Definition is_reply (e : effect) : bool :=
  match e with Reply _ _ _ => true | _ => false end.

(** The effect is not a reply that LINE refused. *)
Definition delivered (e : effect) : bool :=
  match e with Reply _ _ sent => sent | _ => true end.

(** The extension [handle_file_message] gives the file of a message. *)
Definition extension (message_type : string) : string :=
  if String.eqb message_type "image" then "jpg"
  else if String.eqb message_type "video" then "mp4"
  else if String.eqb message_type "audio" then "m4a"
  else "bin".

(** ** The shape of what a handler leaves in the log

    [sent], [sent'] and [sent''] are what LINE answered to the replies, in
    the order the handler may attempt them. *)

(** One [process_and_reply]: the forward, the session write when a token
    came back, the reply with the answer, and the apology when the forward
    failed or LINE refused the answer. *)
Definition forward_segment (reply_token user_id : string)
    (request : chat_request) (outcome : option response) (sent sent' : bool)
  : list effect :=
  PostChat request outcome
  :: match chat_result outcome with
     | Raise _ => [Reply reply_token APOLOGY sent]
     | Return (answer, token) =>
         (if truthy token then [SessionWrite user_id token] else [])
         ++ Reply reply_token answer sent
         :: (if sent then [] else [Reply reply_token APOLOGY sent'])
     end.

(** Whether that [process_and_reply] returns (its last reply went out). *)
Definition forward_delivered (outcome : option response) (sent sent' : bool)
  : bool :=
  match chat_result outcome with
  | Raise _ => sent
  | Return _ => sent || sent'
  end.

(** The session map behind it. *)
Definition sessions_after (user_id : string) (outcome : option response)
    (sessions : gmap string pyval) : gmap string pyval :=
  match token_returned outcome with
  | Some token => <[user_id := token]> sessions
  | None => sessions
  end.

(** One [handle_file_message] whose download succeeded, behind the
    download: the upload, then the forward or the upload apology, then the
    file apology when an exception came out of that. *)
Definition upload_segment (reply_token user_id : string)
    (upload : upload_request) (uploaded : option response)
    (request : chat_request) (outcome : option response)
    (sent sent' sent'' : bool) : list effect :=
  PostUpload upload uploaded
  :: (if truthy (upload_result uploaded)
      then forward_segment reply_token user_id request outcome sent sent'
           ++ (if forward_delivered outcome sent sent' then []
               else [Reply reply_token FILE_APOLOGY sent''])
      else Reply reply_token UPLOAD_APOLOGY sent
           :: (if sent then [] else [Reply reply_token FILE_APOLOGY sent''])).

Definition upload_delivered (uploaded outcome : option response)
    (sent sent' sent'' : bool) : bool :=
  (if truthy (upload_result uploaded)
   then forward_delivered outcome sent sent' else sent) || sent''.

(** ** Sessions read off the chat posts *)

(** The token a query carries for a sender whose session entry is
    [stored]: the entry, unless there is none or it is empty. *)
Definition attached (stored : option pyval) : option pyval :=
  let conversation_id := default (PStr "") stored in
  if truthy conversation_id then Some conversation_id else None.

(** The session map behind a series of chat posts. *)
Fixpoint replay (sessions : gmap string pyval)
    (calls : list (chat_request * option response)) : gmap string pyval :=
  match calls with
  | [] => sessions
  | (request, outcome) :: calls' =>
      replay
        (match sender_of request with
         | Some user_id => sessions_after user_id outcome sessions
         | None => sessions
         end)
        calls'
  end.

(** Every post of the series carries the token its sender has in the
    session map at that moment. *)
Fixpoint tracked (sessions : gmap string pyval)
    (calls : list (chat_request * option response)) : Prop :=
  match calls with
  | [] => True
  | (request, outcome) :: calls' =>
      (exists user_id,
         sender_of request = Some user_id
         /\ token_sent request = attached (sessions !! user_id))
      /\ tracked (replay sessions [(request, outcome)]) calls'
  end.

(** The responses in a series of chat posts are responses of the world. *)
Definition answered_by (w : world)
    (calls : list (chat_request * option response)) : Prop :=
  Forall (fun c => exists l, snd c = post_chat w l (fst c)) calls.

(** What a handler does to a state [s], given as its outcome [out] and the
    part [seg] it adds to the log: the session map is the one replayed from
    the chat posts of [seg], each of these carried the token of its sender
    and was answered by the world, the handler returns or raises what a
    refused reply raises, and it returns when no reply of [seg] was
    refused. *)
Definition summary (w : world) (s : state) (out : result unit * state)
    (seg : list effect) : Prop :=
  snd out = {| user_sessions := replay (user_sessions s) (chat_calls seg);
               log := log s ++ seg |}
  /\ tracked (user_sessions s) (chat_calls seg)
  /\ answered_by w (chat_calls seg)
  /\ (fst out = Return tt \/ fst out = Raise ApiException)
  /\ (Forall (fun x => delivered x = true) seg -> fst out = Return tt).

(** The backend keeps to its interface: a [conversation_id] in a chat
    response is a string, or null. *)
Definition conversation_ids_are_text (w : world) : Prop :=
  forall l request r items v,
    post_chat w l request = Some r ->
    json r = Some (PDict items) ->
    dict_get "conversation_id" items = Some v ->
    v = PNone \/ exists token, v = PStr token.

(** ** Worlds to run the relay in *)

Module Demo.

(** A response with status 200 and the given JSON object. *)
Definition ok (items : list (string * pyval)) : option response :=
  Some {| status_code := 200; json := Some (PDict items) |}.

(** The events of a webhook body: the body "image" stands for an image
    message, "location" for a message no handler is registered for, any
    other body for a text message with that text; all from user "U1". *)
Definition events_of (body : string) : option (list event) :=
  if String.eqb body "image"
  then Some [MessageEvent "U1" "r1" (ImageMessageContent "m1")]
  else if String.eqb body "location"
  then Some [MessageEvent "U1" "r1" (OtherMessageContent "m1" "location")]
  else Some [MessageEvent "U1" "r1" (TextMessageContent "m1" body)].

(** Everything works: the signature "valid" verifies, the backend stores
    the file as "file-1" and answers in conversation "c1". *)
Definition calm : world :=
  {| DIFY_API_KEY := "app-key";
     DIFY_API_URL := "https://dify.example/v1/";
     signature_validator := fun _ signature => String.eqb signature "valid";
     parse := events_of;
     get_message_content := fun _ _ => Some [];
     reply_message := fun _ _ _ => true;
     post_upload := fun _ _ => ok [("id", PStr "file-1")];
     post_chat := fun _ _ =>
       ok [("answer", PStr "hello"); ("conversation_id", PStr "c1")] |}.

(** The same world with another chat endpoint, upload endpoint, or with
    LINE accepting or refusing the replies. *)
Definition with_chat
    (chat : list effect -> chat_request -> option response) (w : world)
  : world :=
  {| DIFY_API_KEY := DIFY_API_KEY w;
     DIFY_API_URL := DIFY_API_URL w;
     signature_validator := signature_validator w;
     parse := parse w;
     get_message_content := get_message_content w;
     reply_message := reply_message w;
     post_upload := post_upload w;
     post_chat := chat |}.

Definition with_upload
    (upload : list effect -> upload_request -> option response) (w : world)
  : world :=
  {| DIFY_API_KEY := DIFY_API_KEY w;
     DIFY_API_URL := DIFY_API_URL w;
     signature_validator := signature_validator w;
     parse := parse w;
     get_message_content := get_message_content w;
     reply_message := reply_message w;
     post_upload := upload;
     post_chat := post_chat w |}.

Definition with_reply (sent : bool) (w : world) : world :=
  {| DIFY_API_KEY := DIFY_API_KEY w;
     DIFY_API_URL := DIFY_API_URL w;
     signature_validator := signature_validator w;
     parse := parse w;
     get_message_content := get_message_content w;
     reply_message := fun _ _ _ => sent;
     post_upload := post_upload w;
     post_chat := post_chat w |}.

(** The backend opens conversation "c1" with its first answer and sends no
    [conversation_id] with the later ones. *)
Definition forgetful : world :=
  with_chat
    (fun l _ =>
       if existsb is_chat l
       then ok [("answer", PStr "again"); ("conversation_id", PStr "")]
       else ok [("answer", PStr "hello"); ("conversation_id", PStr "c1")])
    calm.

(** The backend answers with white space around the text. *)
Definition padded : world :=
  with_chat (fun _ _ => ok [("answer", PStr " hi "); ("conversation_id", PStr "c1")])
    calm.

(** The backend thinks aloud. *)
Definition thinking : world :=
  with_chat
    (fun _ _ => ok [("answer", PStr "Yes.<think>is it?</think> Sure.")])
    calm.

(** The chat endpoint is down. *)
Definition down : world :=
  with_chat (fun _ _ => Some {| status_code := 503; json := None |}) calm.

(** The upload endpoint rejects the file. *)
Definition rejecting : world :=
  with_upload (fun _ _ => Some {| status_code := 413; json := None |}) calm.

(** The upload endpoint answers 200 with an object that has no [id]. *)
Definition idless : world :=
  with_upload (fun _ _ => ok [("name", PStr "m1.jpg")]) calm.

(** LINE refuses every reply. *)
Definition refusing : world := with_reply false calm.

(** The chat endpoint, and the upload endpoint, answer with status 300 (a
    status [requests] neither follows nor raises for) and a JSON object. *)
Definition choosing_chat : world :=
  with_chat
    (fun _ _ =>
       Some {| status_code := 300;
               json := Some (PDict [("answer", PStr "pick one");
                                    ("conversation_id", PStr "c9")]) |})
    calm.

Definition choosing_upload : world :=
  with_upload
    (fun _ _ =>
       Some {| status_code := 300;
               json := Some (PDict [("id", PStr "file-9")]) |})
    calm.

(** A webhook request with the signature "valid". *)
Definition signed (body : string) : request :=
  {| x_line_signature := Some "valid"; body := body |}.

End Demo.

(** ** More to read off a log *)

(** The effect is a write to the session map or a reply: nothing that goes
    to the backend or fetches content. *)
Definition bookkeeping (e : effect) : bool :=
  match e with
  | SessionWrite _ _ | Reply _ _ _ => true
  | _ => false
  end.

(** Every reply of the log goes to the given reply token. *)
Definition replies_to (reply_token : string) (l : list effect) : bool :=
  forallb (fun e => match e with
                    | Reply token _ _ => String.eqb token reply_token
                    | _ => true
                    end) l.

(** Nothing follows a reply LINE has taken. *)
Fixpoint quiet_after_delivery (l : list effect) : bool :=
  match l with
  | [] => true
  | Reply _ _ true :: l' => match l' with [] => true | _ :: _ => false end
  | _ :: l' => quiet_after_delivery l'
  end.

(** ** Start-up *)

Module Startup.

(** The four values read with [os.getenv]: [None] for a variable that is
    not set. *)
Record configuration : Type := {
  LINE_CHANNEL_ACCESS_TOKEN : option string;
  LINE_CHANNEL_SECRET : option string;
  DIFY_API_KEY : option string;
  DIFY_API_URL : option string
}.

(** [os.getenv(name)] in an environment given as the map of the variables
    that are set. *)
Definition getenv (environ : gmap string string) (name : string)
  : option string :=
  environ !! name.

(** Truth value of an [Optional[str]]. *)
Definition filled (v : option string) : bool :=
  match v with
  | Some text => negb (String.eqb text "")
  | None => false
  end.

(** Lines 39 to 46: the configuration the process goes on with, or [None]
    where it logs the error and leaves with [sys.exit(1)]. *)
Definition load (environ : gmap string string) : option configuration :=
  let token := getenv environ "LINE_CHANNEL_ACCESS_TOKEN" in
  let secret := getenv environ "LINE_CHANNEL_SECRET" in
  let key := getenv environ "DIFY_API_KEY" in
  let url := getenv environ "DIFY_API_URL" in
  if forallb filled [token; secret; key; url]
  then Some {| LINE_CHANNEL_ACCESS_TOKEN := token;
               LINE_CHANNEL_SECRET := secret;
               DIFY_API_KEY := key;
               DIFY_API_URL := url |}
  else None.

End Startup.

(** The request gets past the two checks of [callback]: its body is UTF-8
    and its signature (the empty one when the header is missing) verifies. *)
Definition admitted (w : world) (r : request) : bool :=
  match Text.decode_utf8 (body r) with
  | Some text => signature_validator w text (default "" (x_line_signature r))
  | None => false
  end.

(** ** More worlds *)

Module MoreDemo.

(** LINE does not hand over the content of a message. *)
Definition unreachable : world :=
  {| DIFY_API_KEY := DIFY_API_KEY Demo.calm;
     DIFY_API_URL := DIFY_API_URL Demo.calm;
     signature_validator := signature_validator Demo.calm;
     parse := parse Demo.calm;
     get_message_content := fun _ _ => None;
     reply_message := reply_message Demo.calm;
     post_upload := post_upload Demo.calm;
     post_chat := post_chat Demo.calm |}.

(** The backend answers with a conversation but without [answer]. *)
Definition answerless : world :=
  Demo.with_chat (fun _ _ => Demo.ok [("conversation_id", PStr "c1")])
    Demo.calm.

(** A state with a session for "U2" already there. *)
Definition busy : state :=
  {| user_sessions := {[ "U2" := PStr "c2" ]}; log := [] |}.

End MoreDemo.

(** The last thing in a log is a reply LINE refused. *)
Definition ends_refused (l : list effect) : bool :=
  match last l with
  | Some (Reply _ _ false) => true
  | _ => false
  end.

(** How a handler ends shows in its log: it raises exactly when the last
    thing it did was a reply that LINE refused. *)
Definition ends_as_logged (out : result unit * state) (seg : list effect)
  : Prop :=
  fst out = (if ends_refused seg then Raise ApiException else Return tt).

Module EdgeDemo.

(** The chat endpoint is down and LINE refuses the first reply it is asked
    for and takes the later ones. *)
Definition hesitant : world :=
  {| DIFY_API_KEY := DIFY_API_KEY Demo.down;
     DIFY_API_URL := DIFY_API_URL Demo.down;
     signature_validator := signature_validator Demo.down;
     parse := parse Demo.down;
     get_message_content := get_message_content Demo.down;
     reply_message := fun l _ _ => existsb is_reply l;
     post_upload := post_upload Demo.down;
     post_chat := post_chat Demo.down |}.

(** The backend numbers its conversations. *)
Definition numbering : world :=
  Demo.with_chat
    (fun _ _ => Demo.ok [("answer", PStr "hello"); ("conversation_id", PInt 7)])
    Demo.calm.

End EdgeDemo.

(** * Facts *)

(** ** Searching and cutting text *)

Section TextFacts.

Import Text.

Lemma app_String (c : ascii) (s t : string) :
  String c s +:+ t = String c (s +:+ t).
Proof. reflexivity. Qed.

Lemma app_Empty (t : string) : "" +:+ t = t.
Proof. reflexivity. Qed.

Lemma length_app (s t : string) :
  String.length (s +:+ t) = (String.length s + String.length t)%nat.
Proof.
  induction s as [|c s IH]; [reflexivity|].
  rewrite app_String. simpl. now rewrite IH.
Qed.

Lemma after_prefix_spec (p s r : string) :
  after_prefix p s = Some r -> s = p +:+ r.
Proof.
  revert s. induction p as [|a p IH]; intros s H; simpl in H.
  - now inversion H.
  - destruct s as [|b s]; [discriminate|].
    destruct (Ascii.eqb_spec a b) as [->|]; [|discriminate].
    rewrite app_String. f_equal. now apply IH.
Qed.

Lemma after_prefix_app (p r : string) : after_prefix p (p +:+ r) = Some r.
Proof.
  induction p as [|a p IH]; [reflexivity|].
  rewrite app_String. simpl. now rewrite Ascii.eqb_refl.
Qed.

Lemma partition_here (p s r : string) :
  after_prefix p s = Some r -> partition p s = Some ("", r).
Proof. intros H. destruct s; simpl in *; now rewrite H. Qed.

Lemma partition_spec (p s before rest : string) :
  partition p s = Some (before, rest) -> s = before +:+ p +:+ rest.
Proof.
  revert before. induction s as [|c s IH]; intros before H.
  - simpl in H. destruct (after_prefix p "") as [r|] eqn:E; [|discriminate].
    inversion H; subst. rewrite app_Empty. now apply after_prefix_spec.
  - simpl in H. destruct (after_prefix p (String c s)) as [r|] eqn:E.
    + inversion H; subst. rewrite app_Empty. now apply after_prefix_spec.
    + destruct (partition p s) as [[b r]|]; [|discriminate].
      inversion H; subst. rewrite app_String. f_equal. now apply IH.
Qed.

Lemma partition_length (p s before rest : string) :
  partition p s = Some (before, rest) ->
  String.length s
  = (String.length before + String.length p + String.length rest)%nat.
Proof.
  intros H. apply partition_spec in H. subst s.
  rewrite !length_app. lia.
Qed.

(** A pattern whose first character does not come back inside it cannot
    start in a text and run over into a copy of itself put behind. *)
Lemma after_prefix_overrun (c : ascii) (q a t : string) :
  occurs c q = false ->
  after_prefix q a = None ->
  after_prefix q (a +:+ String c t) = None.
Proof.
  revert a. induction q as [|x q IH]; intros a Hc H; [discriminate|].
  simpl in Hc. apply orb_false_iff in Hc as [Hx Hq].
  destruct a as [|b a].
  - rewrite app_Empty. simpl.
    destruct (Ascii.eqb_spec x c) as [->|]; [|reflexivity].
    now rewrite Ascii.eqb_refl in Hx.
  - rewrite app_String. simpl in *.
    destruct (Ascii.eqb x b); [|reflexivity]. now apply IH.
Qed.

Lemma partition_at_first (c : ascii) (p a r : string) :
  occurs c p = false ->
  contains (String c p) a = false ->
  partition (String c p) (a +:+ String c p +:+ r) = Some (a, r).
Proof.
  intros Hc. unfold contains.
  induction a as [|b a IH]; intros H.
  - rewrite app_Empty. apply partition_here, after_prefix_app.
  - rewrite app_String.
    assert (Hhead : after_prefix (String c p) (String b a) = None
                    /\ partition (String c p) a = None).
    { simpl in H. simpl.
      destruct (if Ascii.eqb c b then after_prefix p a else None);
        [discriminate|].
      split; [reflexivity|].
      destruct (partition (String c p) a) as [[? ?]|];
        [discriminate|reflexivity]. }
    destruct Hhead as [Hhead Htail].
    assert (Hover : after_prefix (String c p)
                      (String b (a +:+ String c p +:+ r)) = None).
    { simpl in Hhead. simpl.
      destruct (Ascii.eqb c b); [|reflexivity].
      change (String c p +:+ r) with (String c (p +:+ r)).
      now apply after_prefix_overrun. }
    simpl partition at 1. simpl in Hover. rewrite Hover.
    rewrite IH; [reflexivity|].
    now rewrite Htail.
Qed.

Lemma re_sub_think_fuel_irrelevant (n m : nat) (s : string) :
  (String.length s <= n)%nat -> (String.length s <= m)%nat ->
  re_sub_think_fuel n s = re_sub_think_fuel m s.
Proof.
  revert m s. induction n as [|n IH]; intros m s Hn Hm.
  - destruct s; [|simpl in Hn; lia]. now destruct m.
  - destruct m as [|m].
    + destruct s; [reflexivity|simpl in Hm; lia].
    + simpl.
      destruct (partition OPEN_TAG s) as [[before inner]|] eqn:Eo;
        [|reflexivity].
      destruct (partition CLOSE_TAG inner) as [[skipped rest]|] eqn:Ec;
        [|reflexivity].
      apply partition_length in Eo, Ec.
      change (String.length OPEN_TAG) with 7%nat in Eo.
      change (String.length CLOSE_TAG) with 8%nat in Ec.
      f_equal. apply IH; lia.
Qed.

(** The rounds [re_sub_think] allows are enough: more change nothing. *)
Lemma re_sub_think_fuel_enough (n : nat) (s : string) :
  (String.length s <= n)%nat -> re_sub_think_fuel n s = re_sub_think s.
Proof.
  intros H. unfold re_sub_think.
  now apply re_sub_think_fuel_irrelevant.
Qed.

(** One block cut out, and the scan goes on behind it. *)
Lemma re_sub_think_block (a b c : string) :
  contains OPEN_TAG a = false ->
  contains CLOSE_TAG b = false ->
  re_sub_think (a +:+ OPEN_TAG +:+ b +:+ CLOSE_TAG +:+ c)
  = a +:+ re_sub_think c.
Proof.
  intros Ha Hb. unfold re_sub_think at 1.
  remember (a +:+ OPEN_TAG +:+ b +:+ CLOSE_TAG +:+ c) as s eqn:Es.
  assert (Hlen : String.length s
                 = (String.length a + 7 + String.length b + 8
                    + String.length c)%nat).
  { subst s. rewrite !length_app.
    change (String.length OPEN_TAG) with 7%nat.
    change (String.length CLOSE_TAG) with 8%nat. lia. }
  destruct (String.length s) as [|n] eqn:En; [lia|].
  simpl. subst s.
  unfold OPEN_TAG at 1 2. rewrite partition_at_first by (reflexivity || exact Ha).
  unfold CLOSE_TAG at 1 2. rewrite partition_at_first by (reflexivity || exact Hb).
  f_equal. apply re_sub_think_fuel_enough. lia.
Qed.

(** Without an opening tag nothing is cut. *)
Lemma re_sub_think_untagged (s : string) :
  contains OPEN_TAG s = false -> re_sub_think s = s.
Proof.
  unfold contains, re_sub_think. intros H.
  destruct (String.length s); [reflexivity|]. simpl.
  now destruct (partition OPEN_TAG s).
Qed.

End TextFacts.

(** ** The two posts and the orchestration, step by step *)

Section RelayFacts.

Variable w : world.

Lemma call_dify_api_eq (query user_id : string) (conversation_id file_id : pyval)
    (s : state) :
  let request := chat_call w query user_id conversation_id file_id in
  let outcome := post_chat w (log s) request in
  call_dify_api w query user_id conversation_id file_id s
  = (chat_result outcome, record (PostChat request outcome) s).
Proof.
  cbv zeta.
  unfold call_dify_api, try_except, bind, requests_post_chat, chat_result.
  destruct (post_chat w (log s) _) as [r|]; [|reflexivity].
  unfold raise_for_status, response_json.
  destruct (error_status r); [reflexivity|].
  destruct (json r) as [v|]; [|reflexivity].
  destruct v; try reflexivity.
  unfold py_get, ret.
  destruct (default (PStr APOLOGY) (dict_get "answer" items)); reflexivity.
Qed.

Lemma upload_file_to_dify_eq (file_content : list Byte.byte)
    (filename user_id : string) (s : state) :
  let request := upload_call w file_content filename user_id in
  let outcome := post_upload w (log s) request in
  upload_file_to_dify w file_content filename user_id s
  = (Return (upload_result outcome), record (PostUpload request outcome) s).
Proof.
  cbv zeta.
  unfold upload_file_to_dify, try_except, bind, requests_post_upload,
    upload_result.
  destruct (post_upload w (log s) _) as [r|]; [|reflexivity].
  unfold raise_for_status, response_json.
  destruct (error_status r); [reflexivity|].
  destruct (json r) as [v|]; [|reflexivity].
  destruct v; reflexivity.
Qed.

Lemma reply_text_eq (reply_token text : string) (s : state) :
  let sent := reply_message w (log s) reply_token text in
  reply_text w reply_token text s
  = (if sent then Return tt else Raise ApiException,
     record (Reply reply_token text sent) s).
Proof. cbv zeta. unfold reply_text. now destruct (reply_message _ _ _ _). Qed.

(** [process_and_reply] behind a forward that failed and behind one that
    came back. *)
Lemma process_and_reply_failed (reply_token query user_id : string)
    (conversation_id file_id : pyval) (s s1 : state) (e : exn) :
  call_dify_api w query user_id conversation_id file_id s = (Raise e, s1) ->
  process_and_reply w reply_token query user_id conversation_id file_id s
  = reply_text w reply_token APOLOGY s1.
Proof.
  intros H. unfold process_and_reply, try_except, bind. now rewrite H.
Qed.

Lemma process_and_reply_returned (reply_token query user_id : string)
    (conversation_id file_id : pyval) (s s1 : state)
    (answer : string) (token : pyval) :
  call_dify_api w query user_id conversation_id file_id s
  = (Return (answer, token), s1) ->
  process_and_reply w reply_token query user_id conversation_id file_id s
  = let s2 := if truthy token
              then snd (session_set user_id token s1) else s1 in
    match reply_text w reply_token answer s2 with
    | (Return _, s3) => (Return tt, s3)
    | (Raise _, s3) => reply_text w reply_token APOLOGY s3
    end.
Proof.
  intros H. unfold process_and_reply, try_except, bind. rewrite H.
  cbv zeta. destruct (truthy token); simpl;
    destruct (reply_text w reply_token answer _) as [[[]|] ?]; reflexivity.
Qed.

(** C2.  Every invocation of [process_and_reply]: when [call_dify_api]
    raises, the exception is caught and the invocation ends as the reply of
    the fixed apology ends, with the session map as it was; when it returns,
    the log shows the forward, then the write of the new token to the
    sender's session (present exactly when the token is non-empty), then the
    reply with the answer (followed by the apology only if LINE refused that
    reply). *)
Theorem process_and_reply_catches_and_orders
    (reply_token query user_id : string) (conversation_id file_id : pyval)
    (s : state) :
  let request := chat_call w query user_id conversation_id file_id in
  let outcome := post_chat w (log s) request in
  let s' := snd (process_and_reply w reply_token query user_id
                   conversation_id file_id s) in
  match call_dify_api w query user_id conversation_id file_id s with
  | (Raise _, s1) =>
      process_and_reply w reply_token query user_id conversation_id file_id s
      = reply_text w reply_token APOLOGY s1
      /\ (exists sent,
            log s' = log s ++ [PostChat request outcome;
                               Reply reply_token APOLOGY sent])
      /\ user_sessions s' = user_sessions s
  | (Return (answer, token), _) =>
      (exists sent sent',
         log s' = log s ++ [PostChat request outcome]
                  ++ (if truthy token then [SessionWrite user_id token] else [])
                  ++ Reply reply_token answer sent
                  :: (if sent then [] else [Reply reply_token APOLOGY sent']))
      /\ user_sessions s'
         = (if truthy token
            then <[user_id := token]> (user_sessions s)
            else user_sessions s)
  end.
Proof.
  cbv zeta.
  destruct (call_dify_api w query user_id conversation_id file_id s)
    as [[[answer token]|e] s1] eqn:Hcall.
  - rewrite (process_and_reply_returned _ _ _ _ _ _ _ _ _ Hcall).
    rewrite call_dify_api_eq in Hcall. cbv zeta in Hcall.
    inversion Hcall as [[Hres Hs1]]. clear Hcall. cbv zeta.
    rewrite !reply_text_eq. cbv zeta.
    destruct (truthy token); simpl;
      match goal with
      | |- context [if ?b then Return tt else _] => destruct b eqn:Hsent
      end; simpl; (split; [|reflexivity]);
      rewrite <- ?app_assoc; simpl;
      solve [ exists true, true; reflexivity
            | eexists false, _; reflexivity ].
  - rewrite (process_and_reply_failed _ _ _ _ _ _ _ _ Hcall).
    rewrite call_dify_api_eq in Hcall. cbv zeta in Hcall.
    inversion Hcall as [[Hres Hs1]]. clear Hcall.
    rewrite reply_text_eq. cbv zeta. simpl.
    split; [reflexivity|]. split; [|reflexivity].
    rewrite <- app_assoc. simpl. eauto.
Qed.

(** C6.  Every invocation of [call_dify_api] posts one JSON body to the
    chat-messages endpoint: [inputs] is the empty dict, [query] the given
    query, [response_mode] is "blocking", [user] the sender, [files] the
    empty list, or, when a file reference is given, the one-element list
    with [type] "image" (whatever the medium was), [transfer_method]
    "local_file" and the reference as [upload_file_id]; the key
    [conversation_id] is there, with the token as value, exactly when the
    token is non-empty. *)
Theorem call_dify_api_body
    (query user_id : string) (conversation_id file_id : pyval) (s : state) :
  let files :=
    if truthy file_id
    then PList [PDict [ ("type", PStr "image");
                        ("transfer_method", PStr "local_file");
                        ("upload_file_id", file_id) ]]
    else PList [] in
  let body :=
    [ ("inputs", PDict []);
      ("query", PStr query);
      ("response_mode", PStr "blocking");
      ("user", PStr user_id);
      ("files", files) ]
    ++ (if truthy conversation_id
        then [("conversation_id", conversation_id)] else []) in
  (exists outcome,
     log (snd (call_dify_api w query user_id conversation_id file_id s))
     = log s
       ++ [PostChat
             {| chat_url :=
                  Text.rstrip_slash (DIFY_API_URL w) +:+ "/chat-messages";
                chat_headers :=
                  [ ("Authorization", "Bearer " +:+ DIFY_API_KEY w);
                    ("Content-Type", "application/json") ];
                chat_json := PDict body |}
             outcome])
  /\ (is_Some (dict_get "conversation_id" body)
      <-> truthy conversation_id = true)
  /\ (truthy conversation_id = true ->
      dict_get "conversation_id" body = Some conversation_id).
Proof.
  cbv zeta. rewrite call_dify_api_eq. cbv zeta. simpl.
  unfold chat_call, payload.
  destruct (truthy conversation_id), (truthy file_id); simpl;
    (split; [eexists; reflexivity|]); split;
    try (split;
         [ intros [? H]; solve [reflexivity | discriminate H]
         | intros H; solve [eexists; reflexivity | discriminate H] ]);
    intros H; solve [reflexivity | discriminate H].
Qed.

Lemma process_and_reply_shape (reply_token query user_id : string)
    (conversation_id file_id : pyval) (s : state) :
  let request := chat_call w query user_id conversation_id file_id in
  let outcome := post_chat w (log s) request in
  exists sent sent',
    process_and_reply w reply_token query user_id conversation_id file_id s
    = (if forward_delivered outcome sent sent'
       then Return tt else Raise ApiException,
       {| user_sessions := sessions_after user_id outcome (user_sessions s);
          log := log s
                 ++ forward_segment reply_token user_id request outcome
                      sent sent' |}).
Proof.
  cbv zeta.
  destruct (call_dify_api w query user_id conversation_id file_id s)
    as [[[answer token]|e] s1] eqn:Hcall.
  - rewrite (process_and_reply_returned _ _ _ _ _ _ _ _ _ Hcall).
    rewrite call_dify_api_eq in Hcall. cbv zeta in Hcall.
    inversion Hcall as [[Hres Hs1]]. clear Hcall. cbv zeta.
    unfold forward_segment, forward_delivered, sessions_after, token_returned.
    rewrite Hres, reply_text_eq. cbv zeta.
    destruct (reply_message w _ reply_token answer) eqn:Hsent.
    + exists true, true.
      destruct (truthy token); unfold record; simpl;
        rewrite <- ?app_assoc; reflexivity.
    + rewrite reply_text_eq. cbv zeta.
      exists false.
      destruct (truthy token); unfold record; simpl;
        rewrite <- !app_assoc; simpl; eexists; reflexivity.
  - rewrite (process_and_reply_failed _ _ _ _ _ _ _ _ Hcall).
    rewrite call_dify_api_eq in Hcall. cbv zeta in Hcall.
    inversion Hcall as [[Hres Hs1]]. clear Hcall.
    unfold forward_segment, forward_delivered, sessions_after, token_returned.
    rewrite Hres, reply_text_eq. cbv zeta. unfold record. simpl.
    rewrite <- app_assoc. simpl.
    eexists _, true. reflexivity.
Qed.

Lemma handle_text_message_eq (user_id user_message reply_token : string)
    (s : state) :
  handle_text_message w user_id user_message reply_token s
  = process_and_reply w reply_token user_message user_id
      (default (PStr "") (user_sessions s !! user_id)) PNone s.
Proof. reflexivity. Qed.

Lemma extension_map_get (message_type : string) :
  default "bin" (extension_map !! message_type) = extension message_type.
Proof.
  unfold extension_map, extension.
  destruct (String.eqb_spec message_type "image") as [->|Hi]; [reflexivity|].
  rewrite lookup_insert_ne by congruence.
  destruct (String.eqb_spec message_type "video") as [->|Hv]; [reflexivity|].
  rewrite lookup_insert_ne by congruence.
  destruct (String.eqb_spec message_type "audio") as [->|Ha]; [reflexivity|].
  now rewrite lookup_singleton_ne by congruence.
Qed.

Lemma handle_file_message_eq
    (user_id reply_token message_id message_type : string) (s : state) :
  let content := get_message_content w (log s) message_id in
  let s1 := record (GetContent message_id content) s in
  handle_file_message w user_id reply_token message_id message_type s
  = match content with
    | None => reply_text w reply_token FILE_APOLOGY s1
    | Some file_content =>
        let request :=
          upload_call w file_content
            (message_id +:+ "." +:+ extension message_type) user_id in
        let outcome := post_upload w (log s1) request in
        let s2 := record (PostUpload request outcome) s1 in
        match
          (if truthy (upload_result outcome)
           then process_and_reply w reply_token
                  ("[" +:+ message_type +:+ " uploaded]") user_id
                  (default (PStr "") (user_sessions s !! user_id))
                  (upload_result outcome) s2
           else reply_text w reply_token UPLOAD_APOLOGY s2)
        with
        | (Return _, s3) => (Return tt, s3)
        | (Raise _, s3) => reply_text w reply_token FILE_APOLOGY s3
        end
    end.
Proof.
  cbv zeta.
  unfold handle_file_message, bind, session_get, try_except,
    line_get_message_content.
  destruct (get_message_content w (log s) message_id) as [file_content|];
    [|reflexivity].
  rewrite upload_file_to_dify_eq. cbv zeta.
  rewrite extension_map_get.
  destruct (truthy (upload_result _)).
  - destruct (process_and_reply _ _ _ _ _ _ _) as [[[]|] ?]; reflexivity.
  - destruct (reply_text _ _ _ _) as [[[]|] ?]; reflexivity.
Qed.

Lemma handle_file_message_shape
    (user_id reply_token message_id message_type : string) (s : state)
    (file_content : list Byte.byte) :
  get_message_content w (log s) message_id = Some file_content ->
  let downloaded := GetContent message_id (Some file_content) in
  let upload :=
    upload_call w file_content
      (message_id +:+ "." +:+ extension message_type) user_id in
  let uploaded := post_upload w (log s ++ [downloaded]) upload in
  let request :=
    chat_call w ("[" +:+ message_type +:+ " uploaded]") user_id
      (default (PStr "") (user_sessions s !! user_id))
      (upload_result uploaded) in
  let outcome :=
    post_chat w (log s ++ [downloaded; PostUpload upload uploaded]) request in
  exists sent sent' sent'',
    handle_file_message w user_id reply_token message_id message_type s
    = (if upload_delivered uploaded outcome sent sent' sent''
       then Return tt else Raise ApiException,
       {| user_sessions :=
            if truthy (upload_result uploaded)
            then sessions_after user_id outcome (user_sessions s)
            else user_sessions s;
          log := log s
                 ++ downloaded
                 :: upload_segment reply_token user_id upload uploaded
                      request outcome sent sent' sent'' |}).
Proof.
  intros Hget. cbv zeta.
  rewrite handle_file_message_eq. cbv zeta. rewrite Hget.
  unfold upload_segment, upload_delivered.
  set (upload := upload_call _ _ _ _).
  simpl log at 1.
  set (uploaded := post_upload _ _ _).
  destruct (truthy (upload_result uploaded)).
  - match goal with
    | |- context [process_and_reply w ?t ?q ?u ?c ?f ?s0] =>
        destruct (process_and_reply_shape t q u c f s0)
          as (sent & sent' & Hshape)
    end.
    cbv zeta in Hshape. simpl log in Hshape.
    rewrite <- !app_assoc in Hshape. simpl in Hshape.
    rewrite Hshape. clear Hshape.
    match goal with
    | |- context [forward_delivered ?o sent sent'] =>
        destruct (forward_delivered o sent sent') eqn:Hd
    end.
    + exists sent, sent', true. rewrite Hd. simpl. rewrite ?app_nil_r.
      reflexivity.
    + rewrite reply_text_eq. cbv zeta.
      exists sent, sent'. rewrite Hd.
      unfold record. simpl. rewrite <- !app_assoc. simpl.
      eexists. reflexivity.
  - rewrite reply_text_eq. cbv zeta.
    destruct (reply_message w _ reply_token UPLOAD_APOLOGY) eqn:Hsent.
    + exists true, true, true.
      unfold record. simpl. rewrite <- !app_assoc. reflexivity.
    + rewrite reply_text_eq. cbv zeta.
      exists false, true.
      unfold record. simpl. rewrite <- !app_assoc. simpl.
      eexists. reflexivity.
Qed.

Lemma upload_failed_result (uploaded : option response) :
  upload_failed uploaded = true -> upload_result uploaded = PNone.
Proof.
  destruct uploaded as [r|]; simpl; [|reflexivity].
  destruct (error_status r); [reflexivity|]. simpl.
  destruct (json r) as [[| | | | |items]|]; try reflexivity. discriminate.
Qed.

(** C8.  For every media event with message identifier [m] and kind [k]
    whose content LINE hands over, the download is followed by one upload,
    and the file name of that upload is [m], a dot and the extension of [k]:
    jpg for image, mp4 for video, m4a for audio, bin for anything else. *)
Theorem upload_filename_of_message
    (user_id reply_token message_id message_type : string) (s : state)
    (file_content : list Byte.byte) :
  get_message_content w (log s) message_id = Some file_content ->
  let ext :=
    if String.eqb message_type "image" then "jpg"
    else if String.eqb message_type "video" then "mp4"
    else if String.eqb message_type "audio" then "m4a"
    else "bin" in
  exists request outcome rest,
    log (snd (handle_file_message w user_id reply_token
                message_id message_type s))
    = log s ++ GetContent message_id (Some file_content)
            :: PostUpload request outcome :: rest
    /\ upload_filename request = message_id +:+ "." +:+ ext
    /\ Forall (fun e => match e with PostUpload _ _ => False | _ => True end)
         rest.
Proof.
  intros Hget ext.
  destruct (handle_file_message_shape user_id reply_token message_id
              message_type s file_content Hget)
    as (sent & sent' & sent'' & Hshape).
  cbv zeta in Hshape. rewrite Hshape. clear Hshape. simpl.
  unfold upload_segment.
  do 3 eexists. split; [reflexivity|]. split; [reflexivity|].
  unfold forward_segment, forward_delivered.
  destruct (truthy (upload_result _)).
  - destruct (chat_result _) as [[answer token]|e];
      destruct sent, sent', sent''; try destruct (truthy token);
      simpl; repeat constructor.
  - destruct sent; repeat constructor.
Qed.

(** C5, amended.  For every media event whose content LINE hands over and
    whose upload to the backend fails ([requests.post] raises, the status
    is a 4xx or 5xx, for which [raise_for_status] raises, or the body is no
    JSON object), the log
    shows the download, the upload and the reply with the upload apology,
    which is not the generic apology; when LINE refuses that reply the file
    apology is tried, and nothing else happens: no forward is made and the
    session map stays. *)
Theorem upload_failure_is_apologised
    (user_id reply_token message_id message_type : string) (s : state)
    (file_content : list Byte.byte) :
  get_message_content w (log s) message_id = Some file_content ->
  let downloaded := GetContent message_id (Some file_content) in
  let upload :=
    upload_call w file_content
      (message_id +:+ "." +:+ extension message_type) user_id in
  let uploaded := post_upload w (log s ++ [downloaded]) upload in
  upload_failed uploaded = true ->
  let s' := snd (handle_file_message w user_id reply_token
                   message_id message_type s) in
  (exists sent sent'',
     log s' = log s ++ downloaded :: PostUpload upload uploaded
                    :: Reply reply_token UPLOAD_APOLOGY sent
                    :: (if sent then []
                        else [Reply reply_token FILE_APOLOGY sent'']))
  /\ (forall seg, log s' = log s ++ seg -> Forall (fun e => is_chat e = false) seg)
  /\ UPLOAD_APOLOGY <> APOLOGY
  /\ user_sessions s' = user_sessions s.
Proof.
  intros Hget downloaded upload uploaded Hfail s'.
  destruct (handle_file_message_shape user_id reply_token message_id
              message_type s file_content Hget)
    as (sent & sent' & sent'' & Hshape).
  cbv zeta in Hshape. fold downloaded upload uploaded in Hshape.
  subst s'. rewrite Hshape. clear Hshape. simpl.
  unfold upload_segment.
  rewrite (upload_failed_result _ Hfail). simpl.
  split; [eauto|]. split; [|split; [discriminate|reflexivity]].
  intros seg Hseg. apply app_inv_head in Hseg. subst seg.
  destruct sent; repeat constructor.
Qed.

(** C10.  When the upload post comes back with a status that is no error
    and a JSON object that has no [id], or a null, empty or otherwise falsy
    one, [upload_file_to_dify] returns a falsy value and the event ends as
    an upload failure does: the upload apology is replied (the file apology
    is tried when LINE refuses it), no forward is made and the session map
    stays. *)
Theorem upload_without_id_is_a_failure
    (user_id reply_token message_id message_type : string) (s : state)
    (file_content : list Byte.byte) (r : response)
    (items : list (string * pyval)) :
  get_message_content w (log s) message_id = Some file_content ->
  let downloaded := GetContent message_id (Some file_content) in
  let filename := message_id +:+ "." +:+ extension message_type in
  let upload := upload_call w file_content filename user_id in
  post_upload w (log s ++ [downloaded]) upload = Some r ->
  error_status r = false ->
  json r = Some (PDict items) ->
  (dict_get "id" items = None
   \/ exists v, dict_get "id" items = Some v /\ truthy v = false) ->
  let s' := snd (handle_file_message w user_id reply_token
                   message_id message_type s) in
  (exists v,
     fst (upload_file_to_dify w file_content filename user_id
            (record downloaded s)) = Return v
     /\ truthy v = false)
  /\ (exists sent sent'',
        log s' = log s ++ downloaded :: PostUpload upload (Some r)
                       :: Reply reply_token UPLOAD_APOLOGY sent
                       :: (if sent then []
                           else [Reply reply_token FILE_APOLOGY sent'']))
  /\ (forall seg, log s' = log s ++ seg -> Forall (fun e => is_chat e = false) seg)
  /\ user_sessions s' = user_sessions s.
Proof.
  intros Hget downloaded filename upload Hpost Hstatus Hjson Hid s'.
  assert (Hfalsy : truthy (upload_result (Some r)) = false).
  { simpl. rewrite Hstatus, Hjson.
    destruct Hid as [->|(v & -> & Hv)]; [reflexivity|exact Hv]. }
  split.
  { rewrite upload_file_to_dify_eq. cbv zeta. simpl.
    fold upload. rewrite Hpost. eauto. }
  destruct (handle_file_message_shape user_id reply_token message_id
              message_type s file_content Hget)
    as (sent & sent' & sent'' & Hshape).
  cbv zeta in Hshape. fold downloaded filename upload in Hshape.
  rewrite Hpost in Hshape.
  subst s'. rewrite Hshape. clear Hshape. cbn [snd log user_sessions].
  unfold upload_segment. rewrite !Hfalsy.
  split; [eauto|]. split; [|reflexivity].
  intros seg Hseg. apply app_inv_head in Hseg. subst seg.
  destruct sent; repeat constructor.
Qed.

Lemma in_forward_segment (reply_token user_id : string)
    (request request' : chat_request) (outcome outcome' : option response)
    (sent sent' : bool) :
  In (PostChat request' outcome')
     (forward_segment reply_token user_id request outcome sent sent') ->
  request' = request /\ outcome' = outcome.
Proof.
  unfold forward_segment. intros [H|H]; [now inversion H|].
  exfalso.
  destruct (chat_result outcome) as [[answer token]|e];
    destruct sent; try destruct (truthy token); simpl in H;
    repeat (destruct H as [H|H]; [discriminate H|]); exact H.
Qed.

Lemma forward_segment_failed (reply_token user_id : string)
    (request : chat_request) (outcome : option response) (sent sent' : bool)
    (e : exn) :
  chat_result outcome = Raise e ->
  forward_segment reply_token user_id request outcome sent sent'
  = [PostChat request outcome; Reply reply_token APOLOGY sent]
  /\ forward_delivered outcome sent sent' = sent
  /\ token_returned outcome = None.
Proof.
  intros H. unfold forward_segment, forward_delivered, token_returned.
  now rewrite H.
Qed.

(** C4, amended.  For every event in whose handling the chat post to the
    backend fails, that is, [call_dify_api] raises ([requests.post] raised,
    the status is a 4xx or 5xx, for which [raise_for_status] raises, or the
    body is no usable JSON), the first reply attempted is the fixed
    apology and it directly follows the failed post; when LINE takes it
    nothing follows, so it is the reply the user gets; when LINE refuses
    it a text event ends there and a media event tries the file apology
    and ends; the session map is exactly as before the event. *)
Theorem failed_forward_is_apologised
    (e : event) (s : state) (seg : list effect)
    (request : chat_request) (outcome : option response) (err : exn) :
  let s' := snd (dispatch w e s) in
  log s' = log s ++ seg ->
  In (PostChat request outcome) seg ->
  chat_result outcome = Raise err ->
  user_sessions s' = user_sessions s
  /\ exists user_id reply_token message pre sent sent'',
       e = MessageEvent user_id reply_token message
       /\ seg = pre ++ PostChat request outcome
                 :: Reply reply_token APOLOGY sent
                 :: (if sent then []
                     else match message with
                          | TextMessageContent _ _ => []
                          | _ => [Reply reply_token FILE_APOLOGY sent'']
                          end)
       /\ Forall (fun x => is_reply x = false) pre.
Proof.
  intros s' Hlog Hin Herr. subst s'.
  destruct e as [user_id reply_token message|];
    [|simpl in Hlog; rewrite <- (app_nil_r (log s)) in Hlog at 1;
      apply app_inv_head in Hlog; subst seg; destruct Hin].
  assert (Hnone : forall x : list effect,
             log s = log s ++ x -> In (PostChat request outcome) x -> False).
  { intros x Hx Hi. rewrite <- (app_nil_r (log s)) in Hx at 1.
    apply app_inv_head in Hx. subst x. destruct Hi. }
  assert (Hfile : forall id type,
    message_id message = id -> message_type message = type ->
    log (snd (handle_file_message w user_id reply_token id type s))
    = log s ++ seg ->
    user_sessions (snd (handle_file_message w user_id reply_token id type s))
    = user_sessions s
    /\ exists pre sent sent'',
         seg = pre ++ PostChat request outcome
                   :: Reply reply_token APOLOGY sent
                   :: (if sent then []
                       else [Reply reply_token FILE_APOLOGY sent''])
         /\ Forall (fun x => is_reply x = false) pre).
  { intros id type _ _ Hl.
    destruct (get_message_content w (log s) id) as [file_content|] eqn:Hget.
    - destruct (handle_file_message_shape user_id reply_token id type s
                  file_content Hget) as (sent & sent' & sent'' & Hshape).
      cbv zeta in Hshape. rewrite Hshape in Hl |- *. clear Hshape.
      cbn [snd log user_sessions] in Hl |- *.
      apply app_inv_head in Hl. subst seg.
      unfold upload_segment in Hin |- *.
      destruct Hin as [Hin|[Hin|Hin]]; try discriminate Hin.
      destruct (truthy (upload_result _)).
      + apply in_app_or in Hin as [Hin|Hin].
        * apply in_forward_segment in Hin as [Hr Ho].
          match type of Hr with _ = ?r => set (req := r) in * end.
          match type of Ho with _ = ?o => set (out := o) in * end.
          clearbody out. clearbody req. subst req out.
          destruct (forward_segment_failed reply_token user_id
                      request outcome sent sent' err Herr)
            as (Hseg & Hdel & Htok).
          unfold sessions_after. rewrite Htok, Hseg, Hdel.
          split; [reflexivity|].
          eexists [_; _], sent, sent''. split; [now destruct sent|].
          repeat constructor.
        * destruct (forward_delivered _ _ _); simpl in Hin;
            repeat (destruct Hin as [Hin|Hin]; [discriminate Hin|]);
            destruct Hin.
      + destruct sent; simpl in Hin;
          repeat (destruct Hin as [Hin|Hin]; [discriminate Hin|]);
          destruct Hin.
    - rewrite handle_file_message_eq in Hl. cbv zeta in Hl.
      rewrite Hget, reply_text_eq in Hl. cbv zeta in Hl.
      unfold record in Hl. simpl in Hl. rewrite <- app_assoc in Hl.
      apply app_inv_head in Hl. subst seg. simpl in Hin.
      repeat (destruct Hin as [Hin|Hin]; [discriminate Hin|]).
      destruct Hin. }
  destruct message as [id text|id|id|id|id type]; simpl in Hlog |- *.
  - destruct (process_and_reply_shape reply_token text user_id
                (default (PStr "") (user_sessions s !! user_id)) PNone s)
      as (sent & sent' & Hshape).
    cbv zeta in Hshape.
    rewrite handle_text_message_eq, Hshape in Hlog |- *. clear Hshape.
    cbn [snd log user_sessions] in Hlog |- *.
    apply app_inv_head in Hlog. subst seg.
    apply in_forward_segment in Hin as [Hr Ho].
    match type of Hr with _ = ?r => set (req := r) in * end.
    match type of Ho with _ = ?o => set (out := o) in * end.
    clearbody out. clearbody req. subst req out.
    destruct (forward_segment_failed reply_token user_id
                request outcome sent sent' err Herr) as (Hseg & Hdel & Htok).
    unfold sessions_after. rewrite Htok, Hseg.
    split; [reflexivity|].
    exists user_id, reply_token, (TextMessageContent id text), [], sent, false.
    split; [reflexivity|]. split; [now destruct sent|constructor].
  - destruct (Hfile id "image" eq_refl eq_refl Hlog)
      as (Hs & pre & sent & sent'' & H1 & H2).
    split; [exact Hs|].
    exists user_id, reply_token, (ImageMessageContent id), pre, sent, sent''.
    auto.
  - destruct (Hfile id "video" eq_refl eq_refl Hlog)
      as (Hs & pre & sent & sent'' & H1 & H2).
    split; [exact Hs|].
    exists user_id, reply_token, (VideoMessageContent id), pre, sent, sent''.
    auto.
  - destruct (Hfile id "audio" eq_refl eq_refl Hlog)
      as (Hs & pre & sent & sent'' & H1 & H2).
    split; [exact Hs|].
    exists user_id, reply_token, (AudioMessageContent id), pre, sent, sent''.
    auto.
  - exfalso. eapply Hnone; eauto.
Qed.

End RelayFacts.

(** ** Sessions along a run *)

Section SessionFacts.

Variable w : world.

Lemma chat_calls_app (l1 l2 : list effect) :
  chat_calls (l1 ++ l2) = chat_calls l1 ++ chat_calls l2.
Proof. unfold chat_calls. apply omap_app. Qed.

Lemma chat_calls_skip (e : effect) (l : list effect) :
  is_chat e = false -> chat_calls (e :: l) = chat_calls l.
Proof. now destruct e. Qed.

Lemma replay_app (sessions : gmap string pyval)
    (c1 c2 : list (chat_request * option response)) :
  replay sessions (c1 ++ c2) = replay (replay sessions c1) c2.
Proof.
  revert sessions. induction c1 as [|[request outcome] c1 IH]; intros sessions;
    [reflexivity|]. simpl. apply IH.
Qed.

Lemma tracked_app (sessions : gmap string pyval)
    (c1 c2 : list (chat_request * option response)) :
  tracked sessions (c1 ++ c2)
  <-> tracked sessions c1 /\ tracked (replay sessions c1) c2.
Proof.
  revert sessions. induction c1 as [|[request outcome] c1 IH]; intros sessions.
  - simpl. tauto.
  - simpl. rewrite IH. tauto.
Qed.

Lemma sender_of_chat_call (query user_id : string)
    (conversation_id file_id : pyval) :
  sender_of (chat_call w query user_id conversation_id file_id)
  = Some user_id.
Proof.
  unfold sender_of, chat_call, payload. simpl.
  destruct (truthy conversation_id), (truthy file_id); reflexivity.
Qed.

Lemma token_sent_chat_call (query user_id : string)
    (conversation_id file_id : pyval) :
  token_sent (chat_call w query user_id conversation_id file_id)
  = if truthy conversation_id then Some conversation_id else None.
Proof.
  unfold token_sent, chat_call, payload. simpl.
  destruct (truthy conversation_id), (truthy file_id); reflexivity.
Qed.

Lemma chat_calls_forward_segment (reply_token user_id : string)
    (request : chat_request) (outcome : option response) (sent sent' : bool) :
  chat_calls (forward_segment reply_token user_id request outcome sent sent')
  = [(request, outcome)].
Proof.
  unfold forward_segment.
  destruct (chat_result outcome) as [[answer token]|e];
    destruct sent; try destruct (truthy token); reflexivity.
Qed.

Lemma forward_segment_refused (reply_token user_id : string)
    (request : chat_request) (outcome : option response) (sent sent' : bool) :
  Forall (fun x => delivered x = true)
    (forward_segment reply_token user_id request outcome sent sent') ->
  forward_delivered outcome sent sent' = true.
Proof.
  unfold forward_segment, forward_delivered.
  destruct (chat_result outcome) as [[answer token]|e];
    destruct sent; try reflexivity; intros H.
  - apply Forall_cons in H as [_ H].
    apply Forall_app in H as [_ H].
    apply Forall_cons in H as [H _]. discriminate H.
  - apply Forall_cons in H as [_ H].
    apply Forall_cons in H as [H _]. discriminate H.
Qed.

Lemma summary_nothing (s : state) : summary w s (Return tt, s) [].
Proof.
  unfold summary. simpl. rewrite app_nil_r.
  destruct s; simpl. repeat split; auto. constructor.
Qed.

Lemma process_and_reply_summary (reply_token query user_id : string)
    (file_id : pyval) (s : state) :
  exists seg,
    summary w s
      (process_and_reply w reply_token query user_id
         (default (PStr "") (user_sessions s !! user_id)) file_id s)
      seg.
Proof.
  destruct (process_and_reply_shape w reply_token query user_id
              (default (PStr "") (user_sessions s !! user_id)) file_id s)
    as (sent & sent' & Hshape).
  cbv zeta in Hshape. rewrite Hshape. clear Hshape.
  match goal with
    | |- context [Build_state _ (log s ++ ?seg)] => exists seg
    end.
  unfold summary. cbn [fst snd].
  rewrite chat_calls_forward_segment. simpl.
  rewrite sender_of_chat_call, token_sent_chat_call.
  split; [reflexivity|]. split; [|split; [|split]].
  - split; [|exact I]. exists user_id. split; reflexivity.
  - repeat constructor. eexists. reflexivity.
  - destruct (forward_delivered _ _ _); auto.
  - intros H. apply forward_segment_refused in H. now rewrite H.
Qed.

Lemma upload_segment_refused (reply_token user_id : string)
    (upload : upload_request) (uploaded : option response)
    (request : chat_request) (outcome : option response)
    (sent sent' sent'' : bool) :
  Forall (fun x => delivered x = true)
    (upload_segment reply_token user_id upload uploaded request outcome
       sent sent' sent'') ->
  upload_delivered uploaded outcome sent sent' sent'' = true.
Proof.
  unfold upload_segment, upload_delivered. intros H.
  apply Forall_cons in H as [_ H].
  destruct (truthy (upload_result uploaded)).
  - apply Forall_app in H as [H _].
    apply forward_segment_refused in H. now rewrite H.
  - apply Forall_cons in H as [H _]. simpl in H. now rewrite H.
Qed.

Lemma chat_calls_upload_segment (reply_token user_id : string)
    (upload : upload_request) (uploaded : option response)
    (request : chat_request) (outcome : option response)
    (sent sent' sent'' : bool) :
  chat_calls
    (upload_segment reply_token user_id upload uploaded request outcome
       sent sent' sent'')
  = if truthy (upload_result uploaded) then [(request, outcome)] else [].
Proof.
  unfold upload_segment.
  destruct (truthy (upload_result uploaded)).
  - rewrite chat_calls_skip by reflexivity.
    rewrite chat_calls_app, chat_calls_forward_segment.
    now destruct (forward_delivered _ _ _).
  - now destruct sent.
Qed.

Lemma handle_file_message_summary
    (user_id reply_token message_id message_type : string) (s : state) :
  exists seg,
    summary w s
      (handle_file_message w user_id reply_token message_id message_type s)
      seg.
Proof.
  destruct (get_message_content w (log s) message_id)
    as [file_content|] eqn:Hget.
  - destruct (handle_file_message_shape w user_id reply_token message_id
                message_type s file_content Hget)
      as (sent & sent' & sent'' & Hshape).
    cbv zeta in Hshape. rewrite Hshape. clear Hshape.
    match goal with
    | |- context [Build_state _ (log s ++ ?seg)] => exists seg
    end.
    unfold summary. cbn [fst snd].
    rewrite (chat_calls_skip (GetContent _ _)) by reflexivity.
    rewrite chat_calls_upload_segment.
    split; [|split; [|split; [|split]]].
    + destruct (truthy (upload_result _)); simpl;
        rewrite ?sender_of_chat_call; reflexivity.
    + destruct (truthy (upload_result _)); simpl; [|exact I].
      rewrite sender_of_chat_call, token_sent_chat_call.
      split; [|exact I]. exists user_id. split; reflexivity.
    + destruct (truthy (upload_result _)); repeat constructor.
      eexists. reflexivity.
    + destruct (upload_delivered _ _ _ _ _); auto.
    + intros H. apply Forall_cons in H as [_ H].
      apply upload_segment_refused in H. now rewrite H.
  - rewrite handle_file_message_eq. cbv zeta. rewrite Hget, reply_text_eq.
    cbv zeta. unfold record. simpl. rewrite <- app_assoc. simpl.
    match goal with
    | |- context [Build_state _ (log s ++ ?seg)] => exists seg
    end.
    unfold summary. cbn [fst snd]. simpl.
    split; [reflexivity|]. split; [exact I|]. split; [constructor|].
    destruct (reply_message _ _ _ _); split; auto.
    intros H. apply Forall_cons in H as [_ H].
    apply Forall_cons in H as [H _]. discriminate H.
Qed.

Lemma dispatch_summary (e : event) (s : state) :
  exists seg, summary w s (dispatch w e s) seg.
Proof.
  destruct e as [user_id reply_token message|];
    [|exists []; apply summary_nothing].
  destruct message as [id text|id|id|id|id type]; simpl.
  - rewrite handle_text_message_eq. apply process_and_reply_summary.
  - apply handle_file_message_summary.
  - apply handle_file_message_summary.
  - apply handle_file_message_summary.
  - exists []. apply summary_nothing.
Qed.

(** Summaries compose along [bind]. *)
Lemma summary_then (s : state) (out1 : result unit * state)
    (seg1 seg2 : list effect) (k : M unit) :
  summary w s out1 seg1 ->
  summary w (snd out1) (k (snd out1)) seg2 ->
  exists seg,
    summary w s
      (match out1 with
       | (Return _, s1) => k s1
       | (Raise e, s1) => (Raise e, s1)
       end)
      seg.
Proof.
  destruct out1 as [[[]|e] s1];
    intros (H1 & H2 & H5 & H3 & H4) (K1 & K2 & K5 & K3 & K4);
    cbn [fst snd] in *.
  - exists (seg1 ++ seg2). unfold summary.
    subst s1. rewrite K1. cbn [user_sessions log] in *.
    rewrite chat_calls_app, replay_app, tracked_app, app_assoc.
    split; [reflexivity|]. split; [tauto|].
    split; [apply Forall_app; split; assumption|]. split; [exact K3|].
    intros H. apply Forall_app in H as [_ H]. auto.
  - exists seg1. unfold summary. cbn [fst snd]. auto.
Qed.

Lemma dispatch_all_summary (events : list event) (s : state) :
  exists seg, summary w s (dispatch_all w events s) seg.
Proof.
  revert s. induction events as [|e events IH]; intros s.
  - exists []. apply summary_nothing.
  - simpl. unfold bind.
    destruct (dispatch_summary e s) as (seg1 & H1).
    destruct (IH (snd (dispatch w e s))) as (seg2 & H2).
    apply (summary_then s _ seg1 seg2 (dispatch_all w events) H1 H2).
Qed.

Lemma callback_eq (request : request) (s : state) :
  callback w request s
  = match Text.decode_utf8 (body request) with
    | None => (Raise UnicodeDecodeError, s)
    | Some text =>
        if signature_validator w text (default "" (x_line_signature request))
        then
          match parse w text with
          | None => (Raise ParseError, s)
          | Some events =>
              match dispatch_all w events s with
              | (Return _, s') => (Return "OK", s')
              | (Raise InvalidSignatureError, s') =>
                  (Raise (HTTPException 400 "Invalid signature"), s')
              | (Raise e, s') => (Raise e, s')
              end
          end
        else (Raise (HTTPException 400 "Invalid signature"), s)
    end.
Proof.
  unfold callback, bind, handle.
  destruct (Text.decode_utf8 (body request)) as [text|]; [|reflexivity].
  simpl.
  destruct (signature_validator w text _); [|reflexivity].
  destruct (parse w text) as [events|]; [|reflexivity].
  destruct (dispatch_all w events s) as [[[]|[]] s']; reflexivity.
Qed.

Lemma callback_summary (request : request) (s : state) :
  exists seg,
    snd (callback w request s)
    = {| user_sessions := replay (user_sessions s) (chat_calls seg);
         log := log s ++ seg |}
    /\ tracked (user_sessions s) (chat_calls seg)
    /\ answered_by w (chat_calls seg).
Proof.
  assert (Hsame : exists seg,
            s = {| user_sessions := replay (user_sessions s) (chat_calls seg);
                   log := log s ++ seg |}
            /\ tracked (user_sessions s) (chat_calls seg)
            /\ answered_by w (chat_calls seg)).
  { exists []. simpl. rewrite app_nil_r. destruct s.
    repeat split. constructor. }
  rewrite callback_eq.
  destruct (Text.decode_utf8 (body request)) as [text|]; [|exact Hsame].
  destruct (signature_validator w text _); [|exact Hsame].
  destruct (parse w text) as [events|]; [|exact Hsame].
  destruct (dispatch_all_summary events s) as (seg & H1 & H2 & H3 & _).
  exists seg. split; [|split; [exact H2|exact H3]].
  destruct (dispatch_all w events s) as [[[]|[]] s']; exact H1.
Qed.

Lemma serve_summary (requests : list request) (s : state) :
  exists seg,
    serve w requests s
    = {| user_sessions := replay (user_sessions s) (chat_calls seg);
         log := log s ++ seg |}
    /\ tracked (user_sessions s) (chat_calls seg)
    /\ answered_by w (chat_calls seg).
Proof.
  revert s. induction requests as [|r requests IH]; intros s.
  - exists []. simpl. rewrite app_nil_r. destruct s.
    repeat split. constructor.
  - simpl.
    destruct (callback_summary r s) as (seg1 & H1 & T1 & A1).
    destruct (IH (snd (callback w r s))) as (seg2 & H2 & T2 & A2).
    exists (seg1 ++ seg2). rewrite H2, H1. cbn [user_sessions log].
    rewrite H1 in T2. cbn [user_sessions] in T2.
    rewrite chat_calls_app, replay_app, tracked_app, app_assoc.
    split; [reflexivity|]. split; [auto|].
    apply Forall_app. auto.
Qed.

Lemma token_returned_truthy (outcome : option response) (token : pyval) :
  token_returned outcome = Some token -> truthy token = true.
Proof.
  unfold token_returned.
  destruct (chat_result outcome) as [[answer c]|e]; [|discriminate].
  destruct (truthy c) eqn:Hc; [|discriminate].
  now intros [= <-].
Qed.

Lemma attached_token (token : pyval) :
  truthy token = true -> attached (Some token) = Some token.
Proof. intros H. unfold attached. simpl. now rewrite H. Qed.

Lemma sessions_after_lookup (user_id : string) (outcome : option response)
    (sessions : gmap string pyval) :
  sessions_after user_id outcome sessions !! user_id
  = match token_returned outcome with
    | Some token => Some token
    | None => sessions !! user_id
    end.
Proof.
  unfold sessions_after.
  destruct (token_returned outcome); [apply lookup_insert_eq|reflexivity].
Qed.

Lemma sessions_after_other (user_id other : string)
    (outcome : option response) (sessions : gmap string pyval) :
  other <> user_id ->
  sessions_after other outcome sessions !! user_id = sessions !! user_id.
Proof.
  intros H. unfold sessions_after.
  destruct (token_returned outcome); [now apply lookup_insert_ne|reflexivity].
Qed.

(** Posts of other senders leave the entry of a sender alone. *)
Lemma replay_other (user_id : string)
    (calls : list (chat_request * option response))
    (sessions : gmap string pyval) :
  Forall (fun c => sender_of (fst c) <> Some user_id) calls ->
  replay sessions calls !! user_id = sessions !! user_id.
Proof.
  intros H. revert sessions.
  induction H as [|[request outcome] calls Hc _ IH]; intros sessions;
    [reflexivity|].
  simpl. rewrite IH. simpl in Hc.
  destruct (sender_of request) as [other|]; [|reflexivity].
  apply sessions_after_other. congruence.
Qed.

Lemma tracked_next (user_id : string) (sessions : gmap string pyval)
    (pre mid post : list (chat_request * option response))
    (r1 r2 : chat_request) (o1 o2 : option response) :
  tracked sessions (pre ++ (r1, o1) :: mid ++ (r2, o2) :: post) ->
  sender_of r1 = Some user_id ->
  sender_of r2 = Some user_id ->
  Forall (fun c => sender_of (fst c) <> Some user_id) mid ->
  token_sent r2
  = match token_returned o1 with
    | Some token => Some token
    | None => token_sent r1
    end.
Proof.
  intros Ht H1 H2 Hmid.
  apply tracked_app in Ht as [_ Ht].
  simpl in Ht. destruct Ht as [(u1 & Hu1 & Hs1) Ht].
  rewrite H1 in Hu1, Ht. injection Hu1 as <-.
  apply tracked_app in Ht as [_ Ht].
  simpl in Ht. destruct Ht as [(u2 & Hu2 & Hs2) _].
  rewrite H2 in Hu2. injection Hu2 as <-.
  rewrite Hs2, Hs1, replay_other by exact Hmid.
  rewrite sessions_after_lookup.
  destruct (token_returned o1) as [token|] eqn:Ho; [|reflexivity].
  apply attached_token. eapply token_returned_truthy; eauto.
Qed.

(** C1, amended.  Along any run of the server, take two chat posts for the
    same sender with none for that sender in between: the later one
    carries the [conversation_id] the earlier response handed over when
    that response was taken and its [conversation_id] is not empty; when
    the earlier call failed or came back with an empty [conversation_id]
    the later one carries what the earlier query carried, and so is
    without token only when the earlier query was. *)
Theorem continuation_token_follows
    (requests : list request) (s : state) (seg : list effect)
    (user_id : string)
    (pre mid post : list (chat_request * option response))
    (r1 r2 : chat_request) (o1 o2 : option response) :
  log (serve w requests s) = log s ++ seg ->
  chat_calls seg = pre ++ (r1, o1) :: mid ++ (r2, o2) :: post ->
  sender_of r1 = Some user_id ->
  sender_of r2 = Some user_id ->
  Forall (fun c => sender_of (fst c) <> Some user_id) mid ->
  token_sent r2
  = match token_returned o1 with
    | Some token => Some token
    | None => token_sent r1
    end.
Proof.
  intros Hlog Hcalls H1 H2 Hmid.
  destruct (serve_summary requests s) as (seg' & Hs & Ht & _).
  rewrite Hs in Hlog. cbn [log] in Hlog.
  apply app_inv_head in Hlog. subst seg'.
  rewrite Hcalls in Ht.
  eapply tracked_next; eauto.
Qed.

Lemma token_returned_text (l : list effect) (request : chat_request)
    (token : pyval) :
  conversation_ids_are_text w ->
  token_returned (post_chat w l request) = Some token ->
  exists text, token = PStr text /\ text <> "".
Proof.
  intros Hw H.
  pose proof (token_returned_truthy _ _ H) as Htruthy.
  unfold token_returned, chat_result in H.
  destruct (post_chat w l request) as [r|] eqn:Hpost; [|discriminate].
  destruct (error_status r); [discriminate|].
  destruct (json r) as [[| | | | |items]|] eqn:Hjson; try discriminate.
  destruct (default (PStr APOLOGY) (dict_get "answer" items));
    try discriminate.
  destruct (dict_get "conversation_id" items) as [v|] eqn:Hv; simpl in H.
  - destruct (truthy v); [|discriminate]. injection H as ->.
    destruct (Hw l request r items token Hpost Hjson Hv) as [->|[text ->]];
      [discriminate|].
    exists text. split; [reflexivity|].
    intros ->. discriminate.
  - discriminate.
Qed.

Lemma replay_text (calls : list (chat_request * option response))
    (sessions : gmap string pyval) :
  conversation_ids_are_text w ->
  answered_by w calls ->
  (forall u v, sessions !! u = Some v ->
               exists text, v = PStr text /\ text <> "") ->
  forall u v, replay sessions calls !! u = Some v ->
              exists text, v = PStr text /\ text <> "".
Proof.
  intros Hw Ha. revert sessions.
  induction Ha as [|[request outcome] calls [l Hl] _ IH]; intros sessions Hs;
    [exact Hs|].
  simpl in Hl. subst outcome. simpl. apply IH.
  destruct (sender_of request) as [user_id|]; [|exact Hs].
  intros u v. unfold sessions_after.
  destruct (token_returned (post_chat w l request)) as [token|] eqn:Ht;
    [|apply Hs].
  destruct (decide (user_id = u)) as [->|Hne].
  - rewrite lookup_insert_eq. intros [= <-].
    eapply token_returned_text; eauto.
  - rewrite lookup_insert_ne by exact Hne. apply Hs.
Qed.

Lemma replay_truthy (calls : list (chat_request * option response))
    (sessions : gmap string pyval) :
  (forall u v, sessions !! u = Some v -> truthy v = true) ->
  forall u v, replay sessions calls !! u = Some v -> truthy v = true.
Proof.
  revert sessions.
  induction calls as [|[request outcome] calls IH]; intros sessions Hs;
    [exact Hs|].
  simpl. apply IH.
  destruct (sender_of request) as [user_id|]; [|exact Hs].
  intros u v. unfold sessions_after.
  destruct (token_returned outcome) as [token|] eqn:Ht; [|apply Hs].
  destruct (decide (user_id = u)) as [->|Hne].
  - rewrite lookup_insert_eq. intros [= <-].
    eapply token_returned_truthy; eauto.
  - rewrite lookup_insert_ne by exact Hne. apply Hs.
Qed.

(** C9, amended.  Every value found in [user_sessions] along any run from the start
    of the process is non-empty in the sense of [if new_conversation_id:],
    and, with a backend that keeps to its interface (a [conversation_id] is
    a string or null), it is a non-empty string; and an invocation of
    [process_and_reply] whose forward brings an empty [conversation_id]
    leaves [user_sessions] as it is: no entry made, none overwritten. *)
Theorem sessions_hold_nonempty_tokens (requests : list request) :
  (forall user_id v,
     user_sessions (serve w requests initial) !! user_id = Some v ->
     truthy v = true
     /\ (conversation_ids_are_text w ->
         exists token, v = PStr token /\ token <> ""))
  /\ (forall reply_token query user_id conversation_id file_id s answer token,
        fst (call_dify_api w query user_id conversation_id file_id s)
        = Return (answer, token) ->
        truthy token = false ->
        user_sessions
          (snd (process_and_reply w reply_token query user_id
                  conversation_id file_id s))
        = user_sessions s).
Proof.
  split.
  - destruct (serve_summary requests initial) as (seg & Hs & _ & Ha).
    rewrite Hs. cbn [user_sessions].
    assert (Hempty : forall (P : pyval -> Prop) u v,
               user_sessions initial !! u = Some v -> P v).
    { intros P u v H. simpl in H. now rewrite lookup_empty in H. }
    intros user_id v Hv. split.
    + eapply replay_truthy; [apply Hempty|exact Hv].
    + intros Hw.
      eapply replay_text; [exact Hw|exact Ha|apply Hempty|exact Hv].
  - intros reply_token query user_id conversation_id file_id s answer token
      Hcall Htoken.
    destruct (process_and_reply_shape w reply_token query user_id
                conversation_id file_id s) as (sent & sent' & Hshape).
    cbv zeta in Hshape. rewrite Hshape. cbn [snd user_sessions].
    rewrite call_dify_api_eq in Hcall. cbv zeta in Hcall. simpl in Hcall.
    unfold sessions_after, token_returned. rewrite Hcall, Htoken.
    reflexivity.
Qed.

Lemma last_after (l l' : list effect) (x : effect) :
  last (l ++ x :: l') = last (x :: l').
Proof.
  induction l as [|y l IH]; [reflexivity|].
  rewrite <- IH.
  change ((y :: l) ++ x :: l') with (y :: (l ++ x :: l')).
  destruct (l ++ x :: l') eqn:E; [now destruct l|reflexivity].
Qed.

Lemma ends_refused_app (l1 l2 : list effect) :
  ends_refused (l1 ++ l2)
  = match l2 with [] => ends_refused l1 | _ :: _ => ends_refused l2 end.
Proof.
  destruct l2 as [|x l2]; [now rewrite app_nil_r|].
  unfold ends_refused. now rewrite last_after.
Qed.

Lemma ends_refused_delivered (l : list effect) :
  Forall (fun x => delivered x = true) l -> ends_refused l = false.
Proof.
  intros H. unfold ends_refused.
  destruct (last l) as [x|] eqn:Hlast; [|reflexivity].
  apply last_Some in Hlast as [l' ->].
  apply Forall_app in H as [_ H]. apply Forall_cons in H as [H _].
  destruct x; try reflexivity. simpl in H. now rewrite H.
Qed.

Lemma forward_segment_ends (reply_token user_id : string)
    (request : chat_request) (outcome : option response) (sent sent' : bool) :
  ends_refused (forward_segment reply_token user_id request outcome sent sent')
  = negb (forward_delivered outcome sent sent').
Proof.
  unfold forward_segment, forward_delivered, ends_refused.
  destruct (chat_result outcome) as [[answer token]|e];
    destruct sent, sent'; try destruct (truthy token); reflexivity.
Qed.

Lemma upload_segment_ends (reply_token user_id : string)
    (upload : upload_request) (uploaded : option response)
    (request : chat_request) (outcome : option response)
    (sent sent' sent'' : bool) :
  ends_refused
    (upload_segment reply_token user_id upload uploaded request outcome
       sent sent' sent'')
  = negb (upload_delivered uploaded outcome sent sent' sent'').
Proof.
  unfold upload_segment, upload_delivered, forward_segment,
    forward_delivered, ends_refused.
  destruct (truthy (upload_result uploaded)).
  - destruct (chat_result outcome) as [[answer token]|e];
      destruct sent, sent', sent''; try destruct (truthy token); reflexivity.
  - destruct sent, sent''; reflexivity.
Qed.

Lemma dispatch_ends (e : event) (s : state) :
  exists seg,
    log (snd (dispatch w e s)) = log s ++ seg
    /\ ends_as_logged (dispatch w e s) seg.
Proof.
  unfold ends_as_logged.
  assert (Hnothing : exists seg,
            log (snd (@Return unit tt, s)) = log s ++ seg
            /\ fst (@Return unit tt, s)
               = (if ends_refused seg then Raise ApiException else Return tt)).
  { exists []. simpl. now rewrite app_nil_r. }
  destruct e as [user_id reply_token message|]; [|exact Hnothing].
  assert (Hfile : forall id type,
    exists seg,
      log (snd (handle_file_message w user_id reply_token id type s))
      = log s ++ seg
      /\ fst (handle_file_message w user_id reply_token id type s)
         = (if ends_refused seg then Raise ApiException else Return tt)).
  { intros id type.
    destruct (get_message_content w (log s) id) as [file_content|] eqn:Hget.
    - destruct (handle_file_message_shape w user_id reply_token id type s
                  file_content Hget) as (sent & sent' & sent'' & Hshape).
      cbv zeta in Hshape. rewrite Hshape. cbn [fst snd log].
      eexists. split; [reflexivity|].
      change (ends_refused (?x :: ?l)) with (ends_refused ([x] ++ l)).
      rewrite ends_refused_app.
      match goal with
      | |- context [upload_segment ?t ?u ?up ?upd ?r ?o sent sent' sent''] =>
          pose proof (upload_segment_ends t u up upd r o sent sent' sent'')
            as Hends;
          remember (upload_segment t u up upd r o sent sent' sent'') as useg
            eqn:Huseg
      end.
      destruct useg as [|x useg]; [discriminate Huseg|].
      rewrite Hends. now destruct (upload_delivered _ _ _ _ _).
    - rewrite handle_file_message_eq. cbv zeta.
      rewrite Hget, reply_text_eq. cbv zeta. unfold record. simpl.
      rewrite <- app_assoc. simpl.
      eexists. split; [reflexivity|].
      unfold ends_refused. simpl. now destruct (reply_message _ _ _ _). }
  destruct message as [id text|id|id|id|id type]; simpl; auto.
  rewrite handle_text_message_eq.
  destruct (process_and_reply_shape w reply_token text user_id
              (default (PStr "") (user_sessions s !! user_id)) PNone s)
    as (sent & sent' & Hshape).
  cbv zeta in Hshape. rewrite Hshape. cbn [fst snd log].
  eexists. split; [reflexivity|].
  rewrite forward_segment_ends. now destruct (forward_delivered _ _ _).
Qed.

Lemma dispatch_all_ends (events : list event) (s : state) :
  exists seg,
    log (snd (dispatch_all w events s)) = log s ++ seg
    /\ ends_as_logged (dispatch_all w events s) seg.
Proof.
  unfold ends_as_logged.
  revert s. induction events as [|e events IH]; intros s.
  - exists []. simpl. now rewrite app_nil_r.
  - simpl. unfold bind.
    destruct (dispatch_ends e s) as (seg1 & Hl1 & He1).
    unfold ends_as_logged in He1.
    destruct (dispatch w e s) as [[[]|x] s1]; cbn [fst snd] in *.
    + destruct (IH s1) as (seg2 & Hl2 & He2).
      exists (seg1 ++ seg2). rewrite Hl2, Hl1, app_assoc.
      split; [reflexivity|].
      rewrite He2, ends_refused_app.
      destruct seg2; [|reflexivity].
      destruct (ends_refused seg1); [discriminate He1|reflexivity].
    + exists seg1. split; [exact Hl1|exact He1].
Qed.

Lemma callback_undecodable (request : request) (s : state) :
  Text.utf8_valid (body request) = false ->
  callback w request s = (Raise UnicodeDecodeError, s).
Proof.
  intros H. rewrite callback_eq. unfold Text.decode_utf8. now rewrite H.
Qed.

(** C7, amended.  For every [POST /callback] whose body is valid UTF-8:
    when the signature does not verify, the route raises the
    [HTTPException] with status 400 and nothing has been done (the state,
    log included, is as before); when it verifies and the body parses, the
    route returns 'OK', served with status 200, unless the last thing done
    for the events was a reply that LINE refused, and then the exception
    of that reply leaves the route, served with status 500; in particular
    it returns 'OK' when LINE refuses none of the replies attempted; when
    the signature verifies and the body does not parse, nothing is done
    and the status is 500. *)
Theorem callback_answers (request : request) (s : state) :
  Text.utf8_valid (body request) = true ->
  let signature := default "" (x_line_signature request) in
  let out := callback w request s in
  if signature_validator w (body request) signature
  then match parse w (body request) with
       | Some events =>
           forall seg,
             log (snd out) = log s ++ seg ->
             (if ends_refused seg
              then fst out = Raise ApiException
                   /\ served_status (fst out) = 500
              else fst out = Return "OK" /\ served_status (fst out) = 200)
             /\ (Forall (fun x => delivered x = true) seg ->
                 fst out = Return "OK" /\ served_status (fst out) = 200)
       | None =>
           out = (Raise ParseError, s) /\ served_status (fst out) = 500
       end
  else out = (Raise (HTTPException 400 "Invalid signature"), s)
       /\ served_status (fst out) = 400.
Proof.
  intros Hutf8 signature out. subst out.
  rewrite callback_eq. unfold Text.decode_utf8. rewrite Hutf8.
  fold signature.
  destruct (signature_validator w (body request) signature);
    [|split; reflexivity].
  destruct (parse w (body request)) as [events|]; [|split; reflexivity].
  destruct (dispatch_all_ends events s) as (seg' & Hl & He).
  unfold ends_as_logged in He.
  assert (Hmain : forall seg,
    log (snd (match dispatch_all w events s with
              | (Return _, s') => (Return "OK", s')
              | (Raise InvalidSignatureError, s') =>
                  (Raise (HTTPException 400 "Invalid signature"), s')
              | (Raise e, s') => (Raise e, s')
              end)) = log s ++ seg ->
    if ends_refused seg
    then fst (match dispatch_all w events s with
              | (Return _, s') => (Return "OK", s')
              | (Raise InvalidSignatureError, s') =>
                  (Raise (HTTPException 400 "Invalid signature"), s')
              | (Raise e, s') => (Raise e, s')
              end) = Raise ApiException
         /\ served_status
              (fst (match dispatch_all w events s with
                    | (Return _, s') => (Return "OK", s')
                    | (Raise InvalidSignatureError, s') =>
                        (Raise (HTTPException 400 "Invalid signature"), s')
                    | (Raise e, s') => (Raise e, s')
                    end)) = 500
    else fst (match dispatch_all w events s with
              | (Return _, s') => (Return "OK", s')
              | (Raise InvalidSignatureError, s') =>
                  (Raise (HTTPException 400 "Invalid signature"), s')
              | (Raise e, s') => (Raise e, s')
              end) = Return "OK"
         /\ served_status
              (fst (match dispatch_all w events s with
                    | (Return _, s') => (Return "OK", s')
                    | (Raise InvalidSignatureError, s') =>
                        (Raise (HTTPException 400 "Invalid signature"), s')
                    | (Raise e, s') => (Raise e, s')
                    end)) = 200).
  { intros seg Hlog.
    destruct (dispatch_all w events s) as [[[]|e] s'];
      cbn [fst snd] in *.
    - rewrite Hl in Hlog. apply app_inv_head in Hlog. subst seg'.
      destruct (ends_refused seg); [discriminate He|split; reflexivity].
    - assert (Hseg : log s' = log s ++ seg) by (now destruct e).
      rewrite Hl in Hseg. apply app_inv_head in Hseg. subst seg'.
      destruct (ends_refused seg); [|discriminate He].
      injection He as ->. split; reflexivity. }
  intros seg Hlog. split; [exact (Hmain seg Hlog)|].
  intros Hall. specialize (Hmain seg Hlog).
  now rewrite (ends_refused_delivered seg Hall) in Hmain.
Qed.

End SessionFacts.

(** ** The answer handed back *)

(** C3, amended.  For every answer string the backend gives,
    [call_dify_api] returns it with each [<think>...</think>] block cut out
    (what stands between the tags included, newlines too) and the white
    space around the result trimmed: an answer [a<think>b</think>c] with no
    [<think>] in [a] and no [</think>] in [b] comes back as [a] followed by
    what is left of [c], trimmed, which is [ac] trimmed when [c] has no
    [<think>]; an answer without [<think>] comes back with nothing but the
    white space around it removed. *)
Theorem think_blocks_are_cut (w : world)
    (query user_id : string) (conversation_id file_id : pyval) (s : state)
    (r : response) (items : list (string * pyval)) (answer : string) :
  post_chat w (log s) (chat_call w query user_id conversation_id file_id)
  = Some r ->
  error_status r = false ->
  json r = Some (PDict items) ->
  dict_get "answer" items = Some (PStr answer) ->
  exists text token s',
    call_dify_api w query user_id conversation_id file_id s
    = (Return (text, token), s')
    /\ text = Text.strip (Text.re_sub_think answer)
    /\ (forall a b c,
          answer = a +:+ "<think>" +:+ b +:+ "</think>" +:+ c ->
          Text.contains "<think>" a = false ->
          Text.contains "</think>" b = false ->
          text = Text.strip (a +:+ Text.re_sub_think c)
          /\ (Text.contains "<think>" c = false ->
              text = Text.strip (a +:+ c)))
    /\ (Text.contains "<think>" answer = false -> text = Text.strip answer).
Proof.
  intros Hpost Hstatus Hjson Hanswer.
  rewrite call_dify_api_eq. cbv zeta. rewrite Hpost.
  unfold chat_result. rewrite Hstatus, Hjson, Hanswer. simpl.
  do 3 eexists. split; [reflexivity|]. split; [reflexivity|]. split.
  - intros a b c -> Ha Hb.
    pose proof (re_sub_think_block a b c Ha Hb) as Hcut.
    unfold Text.OPEN_TAG, Text.CLOSE_TAG in Hcut. rewrite Hcut.
    split; [reflexivity|].
    intros Hc. now rewrite (re_sub_think_untagged c Hc).
  - intros H. now rewrite (re_sub_think_untagged answer H).
Qed.

(** ** Runs in the demo worlds *)

Section Runs.

Import Demo.

(** Three text messages to the forgetful backend: the second response comes
    without [conversation_id], and the third query still carries "c1". *)
Lemma empty_token_keeps_the_old_one :
  let s := serve forgetful [signed "one"; signed "two"; signed "three"]
             initial in
  exists r1 o1 r2 o2 r3 o3,
    chat_calls (log s) = [(r1, o1); (r2, o2); (r3, o3)]
    /\ sender_of r2 = Some "U1"
    /\ sender_of r3 = Some "U1"
    /\ chat_result o2 = Return ("again", PStr "")
    /\ token_sent r3 = Some (PStr "c1")
    /\ token_sent r3 <> None.
Proof.
  vm_compute. do 6 eexists.
  repeat split; try reflexivity. discriminate.
Qed.

Lemma continuation_token_follows_run :
  let seg := log (serve forgetful [signed "one"; signed "two"] initial) in
  let r1 := chat_call forgetful "one" "U1" (PStr "") PNone in
  let o1 := ok [("answer", PStr "hello"); ("conversation_id", PStr "c1")] in
  let r2 := chat_call forgetful "two" "U1" (PStr "c1") PNone in
  let o2 := ok [("answer", PStr "again"); ("conversation_id", PStr "")] in
  chat_calls seg = [(r1, o1); (r2, o2)]
  /\ token_sent r2
     = match token_returned o1 with
       | Some token => Some token
       | None => token_sent r1
       end.
Proof.
  intros seg r1 o1 r2 o2.
  assert (Hcalls : chat_calls seg = [] ++ (r1, o1) :: [] ++ (r2, o2) :: [])
    by (vm_compute; reflexivity).
  split; [exact Hcalls|].
  apply (continuation_token_follows forgetful
           [signed "one"; signed "two"] initial seg "U1" [] [] []
           r1 r2 o1 o2 eq_refl Hcalls);
    [reflexivity|reflexivity|constructor].
Defined.

(** Two answers that do not come back as the claim has it.  One without
    tag but with white space around it: it is trimmed, not returned
    unchanged.  One of the form [a<think>b</think>c] where [b] holds a
    closing tag: the block ends there, and [ac] is not what comes back. *)
Lemma answers_not_as_claimed :
  (Text.contains "<think>" " hi " = false
   /\ fst (call_dify_api padded "q" "U1" (PStr "") PNone initial)
      = Return ("hi", PStr "c1")
   /\ "hi" <> " hi ")
  /\ ("x<think></think></think>y"
      = "x" +:+ "<think>" +:+ "</think>" +:+ "</think>" +:+ "y"
      /\ fst (call_dify_api
                (with_chat
                   (fun _ _ =>
                      ok [("answer", PStr "x<think></think></think>y")])
                   calm)
                "q" "U1" (PStr "") PNone initial)
         = Return ("x</think>y", PStr "")
      /\ "x</think>y" <> Text.strip ("x" +:+ "y")).
Proof.
  split; (split; [reflexivity|]); (split; [reflexivity|discriminate]).
Qed.

Lemma think_blocks_are_cut_run :
  exists text token s',
    call_dify_api thinking "q" "U1" (PStr "") PNone initial
    = (Return (text, token), s')
    /\ text = "Yes. Sure.".
Proof.
  destruct (think_blocks_are_cut thinking "q" "U1" (PStr "") PNone initial
              {| status_code := 200;
                 json := Some (PDict [("answer",
                           PStr "Yes.<think>is it?</think> Sure.")]) |}
              [("answer", PStr "Yes.<think>is it?</think> Sure.")]
              "Yes.<think>is it?</think> Sure."
              eq_refl eq_refl eq_refl eq_refl)
    as (text & token & s' & Hcall & Htext & _).
  exists text, token, s'. split; [exact Hcall|].
  rewrite Htext. reflexivity.
Defined.

Lemma failed_forward_is_apologised_run :
  let e := MessageEvent "U1" "r1" (TextMessageContent "m1" "hi") in
  let s' := snd (dispatch down e initial) in
  user_sessions s' = user_sessions initial
  /\ exists user_id reply_token message pre sent sent'',
       e = MessageEvent user_id reply_token message
       /\ log s'
          = pre ++ PostChat (chat_call down "hi" "U1" (PStr "") PNone)
                     (Some {| status_code := 503; json := None |})
                :: Reply reply_token APOLOGY sent
                :: (if sent then []
                    else match message with
                         | TextMessageContent _ _ => []
                         | _ => [Reply reply_token FILE_APOLOGY sent'']
                         end)
       /\ Forall (fun x => is_reply x = false) pre.
Proof.
  intros e s'.
  apply (failed_forward_is_apologised down e initial (log s')
           (chat_call down "hi" "U1" (PStr "") PNone)
           (Some {| status_code := 503; json := None |})
           (HTTPError 503));
    [reflexivity|left; reflexivity|reflexivity].
Defined.

(** A text message when the chat endpoint answers with status 300: nothing
    raises, the answer is replied and the session map is written. *)
Lemma other_status_is_no_failure :
  post_chat choosing_chat [] (chat_call choosing_chat "hi" "U1" (PStr "") PNone)
  = Some {| status_code := 300;
            json := Some (PDict [("answer", PStr "pick one");
                                 ("conversation_id", PStr "c9")]) |}
  /\ log (snd (dispatch choosing_chat
                 (MessageEvent "U1" "r1" (TextMessageContent "m1" "hi"))
                 initial))
     = [ PostChat (chat_call choosing_chat "hi" "U1" (PStr "") PNone)
           (Some {| status_code := 300;
                    json := Some (PDict [("answer", PStr "pick one");
                                         ("conversation_id", PStr "c9")]) |});
         SessionWrite "U1" (PStr "c9");
         Reply "r1" "pick one" true ]
  /\ "pick one" <> APOLOGY
  /\ user_sessions (snd (dispatch choosing_chat
                           (MessageEvent "U1" "r1"
                              (TextMessageContent "m1" "hi"))
                           initial)) !! "U1" = Some (PStr "c9")
  /\ user_sessions initial !! "U1" = None.
Proof.
  split; [reflexivity|]. split; [reflexivity|]. split; [discriminate|].
  split; vm_compute; reflexivity.
Qed.

(** An image message when the upload endpoint answers with status 300 and
    a file identifier: the forward is made and its answer is replied. *)
Lemma other_status_upload_is_forwarded :
  post_upload choosing_upload [GetContent "m1" (Some [])]
    (upload_call choosing_upload [] "m1.jpg" "U1")
  = Some {| status_code := 300;
            json := Some (PDict [("id", PStr "file-9")]) |}
  /\ log (snd (handle_file_message choosing_upload "U1" "r1" "m1" "image"
                 initial))
     = [ GetContent "m1" (Some []);
         PostUpload (upload_call choosing_upload [] "m1.jpg" "U1")
           (Some {| status_code := 300;
                    json := Some (PDict [("id", PStr "file-9")]) |});
         PostChat (chat_call choosing_upload "[image uploaded]" "U1"
                     (PStr "") (PStr "file-9"))
           (ok [("answer", PStr "hello"); ("conversation_id", PStr "c1")]);
         SessionWrite "U1" (PStr "c1");
         Reply "r1" "hello" true ]
  /\ "hello" <> UPLOAD_APOLOGY.
Proof.
  split; [reflexivity|]. split; [vm_compute; reflexivity|discriminate].
Qed.

Lemma upload_failure_is_apologised_run :
  exists sent sent'',
    log (snd (handle_file_message rejecting "U1" "r1" "m1" "image" initial))
    = log initial
      ++ GetContent "m1" (Some [])
      :: PostUpload (upload_call rejecting [] "m1.jpg" "U1")
           (Some {| status_code := 413; json := None |})
      :: Reply "r1" UPLOAD_APOLOGY sent
      :: (if sent then [] else [Reply "r1" FILE_APOLOGY sent'']).
Proof.
  exact (proj1 (upload_failure_is_apologised rejecting "U1" "r1" "m1" "image"
                  initial [] eq_refl eq_refl)).
Defined.

Lemma callback_answers_run :
  fst (callback calm (signed "hi") initial) = Return "OK"
  /\ served_status (fst (callback calm (signed "hi") initial)) = 200.
Proof.
  exact (proj1 (callback_answers calm (signed "hi") initial eq_refl
                  (log (snd (callback calm (signed "hi") initial)))
                  eq_refl)).
Defined.

(** Two requests that are not answered as the claim has it.  A signed text
    message when LINE refuses the replies: the exception of the last reply
    leaves the route, which is a 500 and not a 200.  A body that is no
    UTF-8 under a signature that does not verify: decoding raises before
    the signature is looked at, which is a 500 and not a 400. *)
Lemma callback_server_errors :
  (signature_validator refusing (body (signed "hi"))
     (default "" (x_line_signature (signed "hi"))) = true
   /\ fst (callback refusing (signed "hi") initial) = Raise ApiException
   /\ served_status (fst (callback refusing (signed "hi") initial)) = 500)
  /\ (signature_validator calm (String "255" "") "forged" = false
      /\ fst (callback calm
                {| x_line_signature := Some "forged";
                   body := String "255" "" |} initial)
         = Raise UnicodeDecodeError
      /\ served_status
           (fst (callback calm
                   {| x_line_signature := Some "forged";
                      body := String "255" "" |} initial)) = 500).
Proof. vm_compute. repeat split. Qed.

Lemma upload_filename_of_message_run :
  exists request outcome rest,
    log (snd (handle_file_message calm "U1" "r1" "m1" "video" initial))
    = log initial ++ GetContent "m1" (Some [])
        :: PostUpload request outcome :: rest
    /\ upload_filename request = "m1.mp4"
    /\ Forall (fun e => match e with PostUpload _ _ => False | _ => True end)
         rest.
Proof.
  exact (upload_filename_of_message calm "U1" "r1" "m1" "video" initial []
           eq_refl).
Defined.

Lemma calm_conversation_ids_are_text : conversation_ids_are_text calm.
Proof.
  intros l request r items v Hpost Hjson Hv.
  injection Hpost as <-. injection Hjson as <-.
  simpl in Hv. injection Hv as <-. right. eexists. reflexivity.
Defined.

Lemma sessions_hold_nonempty_tokens_run :
  user_sessions (serve calm [signed "hi"; signed "image"] initial) !! "U1"
  = Some (PStr "c1")
  /\ truthy (PStr "c1") = true
  /\ exists token, PStr "c1" = PStr token /\ token <> "".
Proof.
  assert (Hstored :
            user_sessions (serve calm [signed "hi"; signed "image"] initial)
              !! "U1" = Some (PStr "c1")) by (vm_compute; reflexivity).
  split; [exact Hstored|].
  destruct (proj1 (sessions_hold_nonempty_tokens calm
                     [signed "hi"; signed "image"])
              "U1" (PStr "c1") Hstored) as [Htruthy Htext].
  split; [exact Htruthy|].
  exact (Htext calm_conversation_ids_are_text).
Defined.

Lemma upload_without_id_is_a_failure_run :
  exists sent sent'',
    log (snd (handle_file_message idless "U1" "r1" "m1" "image" initial))
    = log initial
      ++ GetContent "m1" (Some [])
      :: PostUpload (upload_call idless [] "m1.jpg" "U1")
           (Some {| status_code := 200;
                    json := Some (PDict [("name", PStr "m1.jpg")]) |})
      :: Reply "r1" UPLOAD_APOLOGY sent
      :: (if sent then [] else [Reply "r1" FILE_APOLOGY sent'']).
Proof.
  exact (proj1 (proj2 (upload_without_id_is_a_failure idless "U1" "r1" "m1"
                         "image" initial []
                         {| status_code := 200;
                            json := Some (PDict [("name", PStr "m1.jpg")]) |}
                         [("name", PStr "m1.jpg")]
                         eq_refl eq_refl eq_refl eq_refl
                         (or_introl eq_refl)))).
Defined.

End Runs.

(** * More about the handlers *)

Section HandlerFacts.

Variable w : world.

Lemma payload_fields (query user_id : string) (conversation_id file_id : pyval) :
  let items := payload query user_id conversation_id file_id in
  dict_get "query" items = Some (PStr query)
  /\ dict_get "user" items = Some (PStr user_id)
  /\ dict_get "files" items
     = Some (if truthy file_id
             then PList [PDict [ ("type", PStr "image");
                                 ("transfer_method", PStr "local_file");
                                 ("upload_file_id", file_id) ]]
             else PList []).
Proof.
  unfold payload.
  destruct (truthy conversation_id), (truthy file_id); repeat split.
Qed.

Lemma forward_segment_tail (reply_token user_id : string)
    (request : chat_request) (outcome : option response) (sent sent' : bool) :
  exists rest,
    forward_segment reply_token user_id request outcome sent sent'
    = PostChat request outcome :: rest
    /\ forallb bookkeeping rest = true
    /\ replies_to reply_token rest = true
    /\ existsb is_reply rest = true.
Proof.
  unfold forward_segment, replies_to. eexists. split; [reflexivity|].
  destruct (chat_result outcome) as [[answer token]|e];
    destruct sent; try destruct (truthy token); simpl;
    rewrite ?String.eqb_refl; repeat split.
Qed.

(** X1.  A text message goes to the backend as it is: the one post of the
    event is the chat post whose [query] is the text, whose [user] is the
    sender and whose [files] is empty; what follows it are only the session
    write and replies.  No content is fetched, nothing is uploaded. *)
Theorem text_message_is_forwarded_verbatim
    (user_id user_message reply_token : string) (s : state) :
  exists items outcome rest,
    log (snd (handle_text_message w user_id user_message reply_token s))
    = log s
      ++ PostChat
           {| chat_url :=
                Text.rstrip_slash (DIFY_API_URL w) +:+ "/chat-messages";
              chat_headers :=
                [ ("Authorization", "Bearer " +:+ DIFY_API_KEY w);
                  ("Content-Type", "application/json") ];
              chat_json := PDict items |}
           outcome
      :: rest
    /\ dict_get "query" items = Some (PStr user_message)
    /\ dict_get "user" items = Some (PStr user_id)
    /\ dict_get "files" items = Some (PList [])
    /\ forallb bookkeeping rest = true.
Proof.
  rewrite handle_text_message_eq.
  destruct (process_and_reply_shape w reply_token user_message user_id
              (default (PStr "") (user_sessions s !! user_id)) PNone s)
    as (sent & sent' & Hshape).
  cbv zeta in Hshape. rewrite Hshape. clear Hshape. cbn [snd log].
  match goal with
  | |- context [forward_segment ?t ?u ?r ?o sent sent'] =>
      destruct (forward_segment_tail t u r o sent sent')
        as (rest & Hseg & Hbook & _)
  end.
  rewrite Hseg. unfold chat_call.
  destruct (payload_fields user_message user_id
              (default (PStr "") (user_sessions s !! user_id)) PNone)
    as (Hq & Hu & Hf).
  do 3 eexists. split; [reflexivity|]. auto.
Qed.

(** X2.  A media message whose content LINE hands over and whose upload brings
    a file identifier: the log shows the download, the upload and the chat
    post in this order, the chat post has the query "[<kind> uploaded]",
    the sender as [user] and as [files] the one entry with the identifier
    the upload returned; only the session write and replies follow. *)
Theorem media_message_is_uploaded_then_forwarded
    (user_id reply_token message_id message_type : string) (s : state)
    (file_content : list Byte.byte) :
  get_message_content w (log s) message_id = Some file_content ->
  let downloaded := GetContent message_id (Some file_content) in
  let upload :=
    upload_call w file_content
      (message_id +:+ "." +:+ default "bin" (extension_map !! message_type))
      user_id in
  let uploaded := post_upload w (log s ++ [downloaded]) upload in
  let file_id := upload_result uploaded in
  truthy file_id = true ->
  exists url headers items outcome rest,
    log (snd (handle_file_message w user_id reply_token
                message_id message_type s))
    = log s
      ++ downloaded :: PostUpload upload uploaded
      :: PostChat {| chat_url := url; chat_headers := headers;
                     chat_json := PDict items |} outcome
      :: rest
    /\ dict_get "query" items
       = Some (PStr ("[" +:+ message_type +:+ " uploaded]"))
    /\ dict_get "user" items = Some (PStr user_id)
    /\ dict_get "files" items
       = Some (PList [PDict [ ("type", PStr "image");
                              ("transfer_method", PStr "local_file");
                              ("upload_file_id", file_id) ]])
    /\ forallb bookkeeping rest = true.
Proof.
  intros Hget downloaded upload uploaded file_id Hid.
  destruct (handle_file_message_shape w user_id reply_token message_id
              message_type s file_content Hget)
    as (sent & sent' & sent'' & Hshape).
  cbv zeta in Hshape. rewrite <- extension_map_get in Hshape.
  fold downloaded upload uploaded file_id in Hshape.
  rewrite Hshape. clear Hshape. cbn [snd log].
  unfold upload_segment. fold file_id. rewrite Hid.
  match goal with
  | |- context [forward_segment ?t ?u ?r ?o sent sent'] =>
      destruct (forward_segment_tail t u r o sent sent')
        as (rest & Hseg & Hbook & _);
      rewrite Hseg
  end.
  unfold chat_call.
  destruct (payload_fields ("[" +:+ message_type +:+ " uploaded]") user_id
              (default (PStr "") (user_sessions s !! user_id)) file_id)
    as (Hq & Hu & Hf).
  rewrite Hid in Hf.
  do 5 eexists. split; [simpl; reflexivity|].
  split; [exact Hq|]. split; [exact Hu|]. split; [exact Hf|].
  rewrite forallb_app, Hbook.
  now destruct (forward_delivered _ _ _).
Qed.

Lemma download_failure_is_apologised_aux
    (user_id reply_token message_id message_type : string) (s : state) :
  get_message_content w (log s) message_id = None ->
  exists sent : bool,
    handle_file_message w user_id reply_token message_id message_type s
    = (if sent then Return tt else Raise ApiException,
       {| user_sessions := user_sessions s;
          log := log s ++ [GetContent message_id None;
                           Reply reply_token FILE_APOLOGY sent] |}).
Proof.
  intros Hget. rewrite handle_file_message_eq. cbv zeta.
  rewrite Hget, reply_text_eq. cbv zeta. unfold record. simpl.
  rewrite <- app_assoc. eexists. reflexivity.
Qed.

(** X3.  A media message whose content LINE does not hand over: the download
    is followed by the reply with the file apology and by nothing else (no
    upload, no forward), the session map stays, and the handler raises
    exactly when LINE refuses that reply. *)
Theorem download_failure_is_apologised
    (user_id reply_token message_id message_type : string) (s : state) :
  get_message_content w (log s) message_id = None ->
  exists sent : bool,
    handle_file_message w user_id reply_token message_id message_type s
    = (if sent then Return tt else Raise ApiException,
       {| user_sessions := user_sessions s;
          log := log s ++ [GetContent message_id None;
                           Reply reply_token FILE_APOLOGY sent] |}).
Proof.
  intros Hget. rewrite handle_file_message_eq. cbv zeta.
  rewrite Hget, reply_text_eq. cbv zeta. unfold record. simpl.
  rewrite <- app_assoc. eexists. reflexivity.
Qed.

Lemma dispatch_sessions (user_id reply_token : string)
    (message : message_content) (s : state) :
  user_sessions (snd (dispatch w (MessageEvent user_id reply_token message) s))
  = user_sessions s
  \/ exists outcome,
       user_sessions
         (snd (dispatch w (MessageEvent user_id reply_token message) s))
       = sessions_after user_id outcome (user_sessions s).
Proof.
  assert (Hfile : forall id type,
    user_sessions (snd (handle_file_message w user_id reply_token id type s))
    = user_sessions s
    \/ exists outcome,
         user_sessions
           (snd (handle_file_message w user_id reply_token id type s))
         = sessions_after user_id outcome (user_sessions s)).
  { intros id type.
    destruct (get_message_content w (log s) id) as [file_content|] eqn:Hget.
    - destruct (handle_file_message_shape w user_id reply_token id type s
                  file_content Hget) as (sent & sent' & sent'' & Hshape).
      cbv zeta in Hshape. rewrite Hshape. cbn [snd user_sessions].
      destruct (truthy (upload_result _)); eauto.
    - destruct (download_failure_is_apologised_aux user_id reply_token id type s
                  Hget)
        as (sent & ->). left. reflexivity. }
  destruct message as [id text|id|id|id|id type]; simpl; auto.
  rewrite handle_text_message_eq.
  destruct (process_and_reply_shape w reply_token text user_id
              (default (PStr "") (user_sessions s !! user_id)) PNone s)
    as (sent & sent' & Hshape).
  cbv zeta in Hshape. rewrite Hshape. cbn [snd user_sessions]. eauto.
Qed.

(** X4.  No event reaches into the session of another sender: handling a
    message of one user leaves the entry of every other user as it is,
    present or absent. *)
Theorem other_senders_are_untouched (user_id reply_token : string)
    (message : message_content) (s : state) (other : string) :
  other <> user_id ->
  user_sessions (snd (dispatch w (MessageEvent user_id reply_token message) s))
    !! other
  = user_sessions s !! other.
Proof.
  intros Hne.
  destruct (dispatch_sessions user_id reply_token message s)
    as [->|[outcome ->]]; [reflexivity|].
  apply sessions_after_other. congruence.
Qed.

Lemma upload_segment_replies (reply_token user_id : string)
    (upload : upload_request) (uploaded : option response)
    (request : chat_request) (outcome : option response)
    (sent sent' sent'' : bool) :
  let seg := upload_segment reply_token user_id upload uploaded
               request outcome sent sent' sent'' in
  replies_to reply_token seg = true
  /\ quiet_after_delivery seg = true
  /\ existsb is_reply seg = true.
Proof.
  cbv zeta.
  unfold upload_segment, forward_segment, forward_delivered, replies_to.
  destruct (truthy (upload_result uploaded)).
  - destruct (chat_result outcome) as [[answer token]|e];
      destruct sent, sent', sent''; try destruct (truthy token); simpl;
      rewrite ?String.eqb_refl; repeat split.
  - destruct sent, sent''; simpl; rewrite ?String.eqb_refl; repeat split.
Qed.

(** X5.  The replies of one event: every reply attempted goes to the reply
    token of that event, nothing at all follows a reply LINE has taken (so
    at most one reply reaches the user, and a second or third attempt is
    made only after a refusal), and a text, image, video or audio message
    is replied to at least once. *)
Theorem replies_of_an_event (user_id reply_token : string)
    (message : message_content) (s : state) :
  exists seg,
    log (snd (dispatch w (MessageEvent user_id reply_token message) s))
    = log s ++ seg
    /\ replies_to reply_token seg = true
    /\ quiet_after_delivery seg = true
    /\ match message with
       | OtherMessageContent _ _ => seg = []
       | _ => existsb is_reply seg = true
       end.
Proof.
  assert (Hfile : forall id type,
    exists seg,
      log (snd (handle_file_message w user_id reply_token id type s))
      = log s ++ seg
      /\ replies_to reply_token seg = true
      /\ quiet_after_delivery seg = true
      /\ existsb is_reply seg = true).
  { intros id type.
    destruct (get_message_content w (log s) id) as [file_content|] eqn:Hget.
    - destruct (handle_file_message_shape w user_id reply_token id type s
                  file_content Hget) as (sent & sent' & sent'' & Hshape).
      cbv zeta in Hshape. rewrite Hshape. cbn [snd log].
      eexists. split; [reflexivity|].
      match goal with
      | |- context [upload_segment ?t ?u ?up ?upd ?r ?o sent sent' sent''] =>
          destruct (upload_segment_replies t u up upd r o sent sent' sent'')
            as (H1 & H2 & H3)
      end.
      cbv zeta in H1, H2, H3. unfold replies_to in *. simpl.
      split; [exact H1|]. split; [exact H2|exact H3].
    - destruct (download_failure_is_apologised_aux user_id reply_token id type s
                  Hget)
        as (sent & ->). cbn [snd log].
      eexists. split; [reflexivity|]. unfold replies_to. simpl.
      rewrite String.eqb_refl. destruct sent; repeat split. }
  destruct message as [id text|id|id|id|id type]; simpl; auto.
  - rewrite handle_text_message_eq.
    destruct (process_and_reply_shape w reply_token text user_id
                (default (PStr "") (user_sessions s !! user_id)) PNone s)
      as (sent & sent' & Hshape).
    cbv zeta in Hshape. rewrite Hshape. cbn [snd log].
    eexists. split; [reflexivity|].
    unfold forward_segment, replies_to.
    destruct (chat_result _) as [[answer token]|e];
      destruct sent, sent'; try destruct (truthy token); simpl;
      rewrite ?String.eqb_refl; repeat split.
  - exists []. rewrite app_nil_r. repeat split.
Qed.

(** X6.  [upload_file_to_dify] never raises: whatever the backend does, it
    makes its one post, leaves the session map alone and returns; what it
    returns is [None] whenever the post raised, the status is a 4xx or 5xx
    or the body is no JSON object, and otherwise the [id] of the object
    ([None] when there is no such key). *)
Theorem upload_never_raises
    (file_content : list Byte.byte) (filename user_id : string) (s : state) :
  let request := upload_call w file_content filename user_id in
  let outcome := post_upload w (log s) request in
  exists v,
    upload_file_to_dify w file_content filename user_id s
    = (Return v,
       {| user_sessions := user_sessions s;
          log := log s ++ [PostUpload request outcome] |})
    /\ (upload_failed outcome = true -> v = PNone)
    /\ (forall r items,
          outcome = Some r -> error_status r = false ->
          json r = Some (PDict items) ->
          v = default PNone (dict_get "id" items)).
Proof.
  cbv zeta. rewrite upload_file_to_dify_eq. cbv zeta.
  eexists. split; [reflexivity|]. split.
  - apply upload_failed_result.
  - intros r items -> Hstatus Hjson. simpl. now rewrite Hstatus, Hjson.
Qed.

(** X7.  A chat response that is taken but has no [answer] key: the text
    [call_dify_api] returns is the generic apology, and the
    [conversation_id] of the response is handed over all the same. *)
Theorem missing_answer_is_the_apology
    (query user_id : string) (conversation_id file_id : pyval) (s : state)
    (r : response) (items : list (string * pyval)) :
  post_chat w (log s) (chat_call w query user_id conversation_id file_id)
  = Some r ->
  error_status r = false ->
  json r = Some (PDict items) ->
  dict_get "answer" items = None ->
  fst (call_dify_api w query user_id conversation_id file_id s)
  = Return (APOLOGY, default (PStr "") (dict_get "conversation_id" items)).
Proof.
  intros Hpost Hstatus Hjson Hanswer.
  rewrite call_dify_api_eq. cbv zeta. rewrite Hpost.
  unfold chat_result. rewrite Hstatus, Hjson, Hanswer.
  cbn [fst default].
  replace (Text.strip (Text.re_sub_think APOLOGY)) with APOLOGY
    by (vm_compute; reflexivity).
  reflexivity.
Qed.

Lemma last_behind (l l' : list effect) (x : effect) :
  last (l ++ x :: l') = last (x :: l').
Proof.
  induction l as [|y l IH]; [reflexivity|].
  rewrite <- IH.
  change ((y :: l) ++ x :: l') with (y :: (l ++ x :: l')).
  destruct (l ++ x :: l') eqn:E; [now destruct l|reflexivity].
Qed.

(** X8.  No failure of the backend leaves [process_and_reply]: it returns, or
    raises what LINE's refusal raised, and it raises exactly when the last
    thing it did was the reply of the generic apology and LINE refused
    it. *)
Theorem process_and_reply_raises_on_refused_apology
    (reply_token query user_id : string) (conversation_id file_id : pyval)
    (s : state) :
  let out := process_and_reply w reply_token query user_id
               conversation_id file_id s in
  (fst out = Return tt \/ fst out = Raise ApiException)
  /\ (fst out = Raise ApiException
      <-> last (log (snd out)) = Some (Reply reply_token APOLOGY false)).
Proof.
  cbv zeta.
  destruct (process_and_reply_shape w reply_token query user_id
              conversation_id file_id s) as (sent & sent' & Hshape).
  cbv zeta in Hshape. rewrite Hshape. clear Hshape. cbn [fst snd log].
  unfold forward_segment, forward_delivered. rewrite last_behind.
  destruct (chat_result _) as [[answer token]|e];
    destruct sent, sent'; try destruct (truthy token); simpl;
    (split; [auto|]); split; intros H; try reflexivity; discriminate H.
Qed.

(** X9.  No failure of the download, of the upload or of the forward leaves
    [handle_file_message]: it returns, or raises what LINE's refusal
    raised, and it raises exactly when the last thing it did was the reply
    of the file apology and LINE refused it. *)
Theorem handle_file_message_raises_on_refused_apology
    (user_id reply_token message_id message_type : string) (s : state) :
  let out := handle_file_message w user_id reply_token
               message_id message_type s in
  (fst out = Return tt \/ fst out = Raise ApiException)
  /\ (fst out = Raise ApiException
      <-> last (log (snd out)) = Some (Reply reply_token FILE_APOLOGY false)).
Proof.
  cbv zeta.
  destruct (get_message_content w (log s) message_id)
    as [file_content|] eqn:Hget.
  - destruct (handle_file_message_shape w user_id reply_token message_id
                message_type s file_content Hget)
      as (sent & sent' & sent'' & Hshape).
    cbv zeta in Hshape. rewrite Hshape. clear Hshape. cbn [fst snd log].
    rewrite last_behind.
    unfold upload_segment, upload_delivered, forward_segment,
      forward_delivered.
    destruct (truthy (upload_result _)).
    + destruct (chat_result _) as [[answer token]|e];
        destruct sent, sent', sent''; try destruct (truthy token); simpl;
        (split; [auto|]); split; intros H; try reflexivity; discriminate H.
    + destruct sent, sent''; simpl;
        (split; [auto|]); split; intros H; try reflexivity; discriminate H.
  - destruct (download_failure_is_apologised_aux user_id reply_token
                message_id message_type s Hget) as (sent & ->).
    cbn [fst snd log]. rewrite last_behind.
    destruct sent; simpl;
      (split; [auto|]); split; intros H; try reflexivity; discriminate H.
Qed.

Lemma replay_keeps (user_id : string)
    (calls : list (chat_request * option response))
    (sessions : gmap string pyval) :
  is_Some (sessions !! user_id) ->
  is_Some (replay sessions calls !! user_id).
Proof.
  revert sessions.
  induction calls as [|[request outcome] calls IH]; intros sessions H;
    [exact H|].
  simpl. apply IH.
  destruct (sender_of request) as [other|]; [|exact H].
  unfold sessions_after.
  destruct (token_returned outcome) as [token|]; [|exact H].
  destruct (decide (other = user_id)) as [->|Hne].
  - rewrite lookup_insert_eq. eauto.
  - now rewrite lookup_insert_ne.
Qed.

(** X10.  A session, once there, stays: whatever requests follow, the sender
    keeps an entry in [user_sessions] (it may be replaced, it is never
    removed). *)
Theorem sessions_are_never_removed
    (requests : list request) (s : state) (user_id : string) :
  is_Some (user_sessions s !! user_id) ->
  is_Some (user_sessions (serve w requests s) !! user_id).
Proof.
  intros H.
  destruct (serve_summary w requests s) as (seg & -> & _).
  cbn [user_sessions]. now apply replay_keeps.
Qed.

(** X11.  The first query the process sends for a sender carries no
    [conversation_id]. *)
Theorem first_query_has_no_token
    (requests : list request) (user_id : string)
    (pre post : list (chat_request * option response))
    (r : chat_request) (o : option response) :
  chat_calls (log (serve w requests initial)) = pre ++ (r, o) :: post ->
  sender_of r = Some user_id ->
  Forall (fun c => sender_of (fst c) <> Some user_id) pre ->
  token_sent r = None.
Proof.
  intros Hcalls Hr Hpre.
  destruct (serve_summary w requests initial) as (seg & Hs & Ht & _).
  rewrite Hs in Hcalls. cbn [log initial] in Hcalls. simpl in Hcalls.
  rewrite Hcalls in Ht.
  apply tracked_app in Ht as [_ Ht]. simpl in Ht.
  destruct Ht as [(u & Hu & Hsent) _].
  rewrite Hr in Hu. injection Hu as <-.
  rewrite Hsent, replay_other by exact Hpre.
  simpl. now rewrite lookup_empty.
Qed.

End HandlerFacts.

(** * More about the text functions *)

Section MoreTextFacts.

Import Text.

Lemma app_assoc_string (a b c : string) : (a +:+ b) +:+ c = a +:+ b +:+ c.
Proof.
  induction a as [|x a IH]; [reflexivity|].
  rewrite !app_String. now rewrite IH.
Qed.

Lemma app_Empty_r (a : string) : a +:+ "" = a.
Proof.
  induction a as [|x a IH]; [reflexivity|]. rewrite app_String. now rewrite IH.
Qed.

Lemma rev_app_spec (a acc : string) :
  String.rev_app a acc = String.rev a +:+ acc.
Proof.
  unfold String.rev. revert acc.
  induction a as [|x a IH]; intros acc; [reflexivity|].
  simpl. rewrite IH, (IH (String x "")), app_assoc_string. reflexivity.
Qed.

Lemma rev_String (x : ascii) (a : string) :
  String.rev (String x a) = String.rev a +:+ String x "".
Proof. unfold String.rev at 1. simpl. apply rev_app_spec. Qed.

Lemma rev_app_distr (a b : string) :
  String.rev (a +:+ b) = String.rev b +:+ String.rev a.
Proof.
  induction a as [|x a IH].
  - rewrite app_Empty. now rewrite app_Empty_r.
  - rewrite app_String, !rev_String, IH, app_assoc_string. reflexivity.
Qed.

Lemma rev_involutive (a : string) : String.rev (String.rev a) = a.
Proof.
  induction a as [|x a IH]; [reflexivity|].
  rewrite rev_String, rev_app_distr, IH. reflexivity.
Qed.

Lemma rev_length (a : string) :
  String.length (String.rev a) = String.length a.
Proof.
  induction a as [|x a IH]; [reflexivity|].
  rewrite rev_String, length_app, IH. simpl. lia.
Qed.

Lemma partition_behind (p a t : string) :
  partition p (a +:+ t) = None -> partition p t = None.
Proof.
  induction a as [|c a IH]; intros H; [exact H|].
  apply IH. rewrite app_String in H. simpl in H.
  destruct (after_prefix p (String c (a +:+ t))); [discriminate|].
  now destruct (partition p (a +:+ t)) as [[? ?]|].
Qed.

(** X12.  A [<think>] that is never closed is left where it is: an answer
    without [</think>] passes [re.sub] unchanged, whatever else it
    holds. *)
Theorem unclosed_think_is_left (s : string) :
  contains "</think>" s = false -> re_sub_think s = s.
Proof.
  unfold contains, re_sub_think. intros H.
  destruct (String.length s); [reflexivity|]. simpl.
  destruct (partition OPEN_TAG s) as [[before inner]|] eqn:Eo; [|reflexivity].
  apply partition_spec in Eo.
  assert (Hinner : partition CLOSE_TAG inner = None).
  { apply (partition_behind CLOSE_TAG OPEN_TAG).
    apply (partition_behind CLOSE_TAG before).
    rewrite <- Eo. unfold CLOSE_TAG.
    now destruct (partition "</think>" s). }
  now rewrite Hinner.
Qed.

Lemma re_sub_think_fuel_length (n : nat) (s : string) :
  (String.length (re_sub_think_fuel n s) <= String.length s)%nat.
Proof.
  revert s. induction n as [|n IH]; intros s; [reflexivity|].
  simpl.
  destruct (partition OPEN_TAG s) as [[before inner]|] eqn:Eo; [|reflexivity].
  destruct (partition CLOSE_TAG inner) as [[skipped rest]|] eqn:Ec;
    [|reflexivity].
  apply partition_length in Eo, Ec.
  rewrite length_app. specialize (IH rest). lia.
Qed.

Lemma drop_space_spec (back : bool) (n : nat) (s : string) :
  (String.length s <= n)%nat ->
  (exists front, s = front +:+ drop_space back s)
  /\ (forall c rest, drop_space back s = String c rest -> space1 c = false).
Proof.
  revert s. induction n as [|n IH]; intros s Hn.
  - destruct s; [|simpl in Hn; lia]. split; [now exists ""|discriminate].
  - destruct s as [|a s1]; [split; [now exists ""|discriminate]|].
    assert (Hself : (exists front, String a s1 = front +:+ String a s1)
                    /\ (space1 a = false ->
                        forall c rest, String a s1 = String c rest ->
                                       space1 c = false)).
    { split; [now exists ""|]. intros Ha c rest [= <- _]. exact Ha. }
    simpl in Hn. simpl.
    destruct (space1 a) eqn:Ha.
    { destruct (IH s1 ltac:(lia)) as [[front Hf] Hh].
      split; [|exact Hh].
      exists (String a front). rewrite app_String. now f_equal. }
    destruct s1 as [|b s2]; [destruct Hself as [H1 H2]; split; [exact H1|exact (H2 eq_refl)]|].
    simpl in Hn.
    destruct (if back then space2 b a else space2 a b).
    { destruct (IH s2 ltac:(lia)) as [[front Hf] Hh].
      split; [|exact Hh].
      exists (String a (String b front)). rewrite !app_String.
      now do 2 f_equal. }
    destruct s2 as [|c s3]; [destruct Hself as [H1 H2]; split; [exact H1|exact (H2 eq_refl)]|].
    simpl in Hn.
    destruct (if back then space3 c b a else space3 a b c).
    { destruct (IH s3 ltac:(lia)) as [[front Hf] Hh].
      split; [|exact Hh].
      exists (String a (String b (String c front))). rewrite !app_String.
      now do 3 f_equal. }
    destruct Hself as [H1 H2]. split; [exact H1|exact (H2 eq_refl)].
Qed.

Lemma drop_space_suffix (back : bool) (s : string) :
  exists front, s = front +:+ drop_space back s.
Proof. exact (proj1 (drop_space_spec back _ s (le_n _))). Qed.

Lemma drop_space_head (back : bool) (s : string) (c : ascii) (rest : string) :
  drop_space back s = String c rest -> space1 c = false.
Proof. exact (proj2 (drop_space_spec back _ s (le_n _)) c rest). Qed.

Lemma strip_ends (s : string) :
  (forall c rest, strip s = String c rest -> space1 c = false)
  /\ (forall front c, strip s = front +:+ String c "" -> space1 c = false).
Proof.
  unfold strip, rstrip, lstrip.
  set (t := drop_space false s).
  set (d := drop_space true (String.rev t)).
  split.
  - intros c rest H.
    destruct (drop_space_suffix true (String.rev t)) as [x Hx]. fold d in Hx.
    apply (f_equal String.rev) in Hx.
    rewrite rev_involutive, rev_app_distr, H, app_String in Hx.
    eapply drop_space_head. fold t. exact Hx.
  - intros front c H.
    apply (f_equal String.rev) in H.
    rewrite rev_involutive, rev_app_distr in H.
    change (String.rev (String c "")) with (String c "") in H.
    rewrite app_String, app_Empty in H.
    eapply drop_space_head. exact H.
Qed.

Lemma strip_length (s : string) :
  (String.length (strip s) <= String.length s)%nat.
Proof.
  unfold strip, rstrip, lstrip.
  destruct (drop_space_suffix false s) as [x Hx].
  destruct (drop_space_suffix true (String.rev (drop_space false s)))
    as [y Hy].
  apply (f_equal String.length) in Hx, Hy.
  rewrite length_app in Hx, Hy. rewrite rev_length in Hy |- *. lia.
Qed.

(** X13.  Whenever [call_dify_api] returns, the text it returns has no
    white space of the one-byte kind (blank, tab, line feed, carriage
    return and the like) at its start or at its end, and it is the cleaned
    form of, and not longer than, the answer string of the response its
    post received: the [answer] of the JSON object, or the generic apology
    when the object has no such key. *)
Theorem returned_text_is_trimmed (w : world)
    (query user_id : string) (conversation_id file_id : pyval) (s : state)
    (text : string) (token : pyval) :
  fst (call_dify_api w query user_id conversation_id file_id s)
  = Return (text, token) ->
  (forall c rest, text = String c rest -> space1 c = false)
  /\ (forall front c, text = front +:+ String c "" -> space1 c = false)
  /\ exists r items answer,
       post_chat w (log s) (chat_call w query user_id conversation_id file_id)
       = Some r
       /\ json r = Some (PDict items)
       /\ default (PStr APOLOGY) (dict_get "answer" items) = PStr answer
       /\ text = strip (re_sub_think answer)
       /\ (String.length text <= String.length answer)%nat.
Proof.
  rewrite call_dify_api_eq. cbv zeta. cbn [fst]. unfold chat_result.
  destruct (post_chat w (log s) _) as [r|]; [|discriminate].
  destruct (error_status r); [discriminate|].
  destruct (json r) as [[| | | | |items]|] eqn:Hjson; try discriminate.
  destruct (default (PStr APOLOGY) (dict_get "answer" items))
    as [| | |answer| |] eqn:Hanswer; try discriminate.
  intros [= <- _].
  destruct (strip_ends (re_sub_think answer)) as [H1 H2].
  split; [exact H1|]. split; [exact H2|].
  exists r, items, answer.
  split; [reflexivity|]. split; [exact Hjson|]. split; [exact Hanswer|].
  split; [reflexivity|].
  etransitivity; [apply strip_length|apply re_sub_think_fuel_length].
Qed.

Lemma drop_slashes_head (s rest : string) :
  drop_slashes s <> String "/" rest.
Proof.
  induction s as [|c s IH]; [discriminate|].
  simpl. destruct (Ascii.eqb_spec c "/"%char) as [->|Hc]; [exact IH|].
  destruct c as [[] [] [] [] [] [] [] []]; try congruence; intros [=].
Qed.

(** X14.  Slashes at the end of the configured base URL do not matter: the URL
    with one more slash gives the same base, and the base never ends with
    a slash, so an endpoint has exactly the slash of its path there. *)
Theorem trailing_slashes_do_not_matter (url : string) :
  rstrip_slash (url +:+ "/") = rstrip_slash url
  /\ (forall front, rstrip_slash url <> front +:+ "/").
Proof.
  unfold rstrip_slash. split.
  - rewrite rev_app_distr.
    change (String.rev "/") with "/".
    rewrite app_String, app_Empty. reflexivity.
  - intros front H.
    apply (f_equal String.rev) in H.
    rewrite rev_involutive, rev_app_distr in H.
    change (String.rev "/") with "/" in H.
    rewrite app_String, app_Empty in H.
    exact (drop_slashes_head _ _ H).
Qed.

End MoreTextFacts.

(** * Requests that are turned away *)

(** X16.  A request whose body is no UTF-8 or whose signature does not verify
    leaves no trace: a run of the server ends in the same state, session
    map and log, as the run without these requests. *)
Theorem rejected_requests_leave_no_trace (w : world)
    (requests : list request) (s : state) :
  serve w requests s = serve w (filter (fun r => admitted w r = true) requests) s.
Proof.
  revert s. induction requests as [|r requests IH]; intros s; [reflexivity|].
  rewrite filter_cons. simpl serve at 1.
  destruct (decide (admitted w r = true)) as [Hr|Hr].
  - simpl. apply IH.
  - rewrite IH. f_equal.
    rewrite callback_eq. unfold admitted in Hr.
    destruct (Text.decode_utf8 (body r)) as [text|]; [|reflexivity].
    destruct (signature_validator w text _); [congruence|reflexivity].
Qed.

(** * Start-up *)

(** X15.  The process starts exactly when the four variables are all set and
    none is empty, and then goes on with exactly their values; when it
    leaves, one of the four is not set or is set to the empty string. *)
Theorem startup_needs_all_four (environ : gmap string string) :
  match Startup.load environ with
  | Some c =>
      exists token secret key url,
        c = {| Startup.LINE_CHANNEL_ACCESS_TOKEN := Some token;
               Startup.LINE_CHANNEL_SECRET := Some secret;
               Startup.DIFY_API_KEY := Some key;
               Startup.DIFY_API_URL := Some url |}
        /\ environ !! "LINE_CHANNEL_ACCESS_TOKEN" = Some token
        /\ environ !! "LINE_CHANNEL_SECRET" = Some secret
        /\ environ !! "DIFY_API_KEY" = Some key
        /\ environ !! "DIFY_API_URL" = Some url
        /\ token <> "" /\ secret <> "" /\ key <> "" /\ url <> ""
  | None =>
      exists name,
        In name [ "LINE_CHANNEL_ACCESS_TOKEN"; "LINE_CHANNEL_SECRET";
                  "DIFY_API_KEY"; "DIFY_API_URL" ]
        /\ (environ !! name = None \/ environ !! name = Some "")
  end.
Proof.
  unfold Startup.load, Startup.getenv, Startup.filled. simpl.
  destruct (environ !! "LINE_CHANNEL_ACCESS_TOKEN") as [token|] eqn:Ht;
    [destruct (String.eqb_spec token "") as [->|Hte]|]; simpl;
    try (exists "LINE_CHANNEL_ACCESS_TOKEN"; split; [simpl; tauto|tauto]).
  destruct (environ !! "LINE_CHANNEL_SECRET") as [secret|] eqn:Hs;
    [destruct (String.eqb_spec secret "") as [->|Hse]|]; simpl;
    try (exists "LINE_CHANNEL_SECRET"; split; [simpl; tauto|tauto]).
  destruct (environ !! "DIFY_API_KEY") as [key|] eqn:Hk;
    [destruct (String.eqb_spec key "") as [->|Hke]|]; simpl;
    try (exists "DIFY_API_KEY"; split; [simpl; tauto|tauto]).
  destruct (environ !! "DIFY_API_URL") as [url|] eqn:Hu;
    [destruct (String.eqb_spec url "") as [->|Hue]|]; simpl;
    try (exists "DIFY_API_URL"; split; [simpl; tauto|tauto]).
  exists token, secret, key, url. repeat split; assumption.
Qed.

(** * More runs *)

Section MoreRuns.

Import Demo MoreDemo.

Lemma media_message_is_uploaded_then_forwarded_run :
  exists url headers items outcome rest,
    log (snd (handle_file_message calm "U1" "r1" "m1" "audio" initial))
    = log initial
      ++ GetContent "m1" (Some [])
      :: PostUpload (upload_call calm [] "m1.m4a" "U1")
           (ok [("id", PStr "file-1")])
      :: PostChat {| chat_url := url; chat_headers := headers;
                     chat_json := PDict items |} outcome
      :: rest
    /\ dict_get "query" items = Some (PStr "[audio uploaded]")
    /\ dict_get "user" items = Some (PStr "U1")
    /\ dict_get "files" items
       = Some (PList [PDict [ ("type", PStr "image");
                              ("transfer_method", PStr "local_file");
                              ("upload_file_id", PStr "file-1") ]])
    /\ forallb bookkeeping rest = true.
Proof.
  exact (media_message_is_uploaded_then_forwarded calm "U1" "r1" "m1" "audio"
           initial [] eq_refl eq_refl).
Defined.

Lemma download_failure_is_apologised_run :
  exists sent : bool,
    handle_file_message unreachable "U1" "r1" "m1" "image" initial
    = (if sent then Return tt else Raise ApiException,
       {| user_sessions := user_sessions initial;
          log := log initial ++ [GetContent "m1" None;
                                 Reply "r1" FILE_APOLOGY sent] |}).
Proof.
  exact (download_failure_is_apologised unreachable "U1" "r1" "m1" "image"
           initial eq_refl).
Defined.

Lemma other_senders_are_untouched_run :
  user_sessions
    (snd (dispatch calm (MessageEvent "U1" "r1" (TextMessageContent "m1" "hi"))
            busy)) !! "U2"
  = user_sessions busy !! "U2".
Proof.
  apply (other_senders_are_untouched calm "U1" "r1"
           (TextMessageContent "m1" "hi") busy "U2").
  discriminate.
Defined.

Lemma missing_answer_is_the_apology_run :
  fst (call_dify_api answerless "hi" "U1" (PStr "") PNone initial)
  = Return (APOLOGY, PStr "c1").
Proof.
  exact (missing_answer_is_the_apology answerless "hi" "U1" (PStr "") PNone
           initial
           {| status_code := 200;
              json := Some (PDict [("conversation_id", PStr "c1")]) |}
           [("conversation_id", PStr "c1")]
           eq_refl eq_refl eq_refl eq_refl).
Defined.

Lemma sessions_are_never_removed_run :
  is_Some (user_sessions (serve forgetful [signed "one"; signed "image"] busy)
             !! "U2").
Proof.
  apply (sessions_are_never_removed forgetful
           [signed "one"; signed "image"] busy "U2").
  exists (PStr "c2"). reflexivity.
Defined.

Lemma first_query_has_no_token_run :
  token_sent (chat_call calm "one" "U1" (PStr "") PNone) = None.
Proof.
  apply (first_query_has_no_token calm [signed "one"; signed "two"] "U1" []
           [(chat_call calm "two" "U1" (PStr "c1") PNone,
             ok [("answer", PStr "hello"); ("conversation_id", PStr "c1")])]
           (chat_call calm "one" "U1" (PStr "") PNone)
           (ok [("answer", PStr "hello"); ("conversation_id", PStr "c1")]));
    [vm_compute; reflexivity|reflexivity|constructor].
Defined.

Lemma unclosed_think_is_left_run :
  Text.re_sub_think "Well <think>let me see" = "Well <think>let me see".
Proof. exact (unclosed_think_is_left "Well <think>let me see" eq_refl). Defined.

Lemma returned_text_is_trimmed_run :
  (forall c rest, "hi" = String c rest -> Text.space1 c = false)
  /\ (forall front c, "hi" = front +:+ String c "" -> Text.space1 c = false)
  /\ exists r items answer,
       post_chat padded (log initial)
         (chat_call padded "q" "U1" (PStr "") PNone) = Some r
       /\ json r = Some (PDict items)
       /\ default (PStr APOLOGY) (dict_get "answer" items) = PStr answer
       /\ "hi" = Text.strip (Text.re_sub_think answer)
       /\ (String.length "hi" <= String.length answer)%nat.
Proof.
  exact (returned_text_is_trimmed padded "q" "U1" (PStr "") PNone initial
           "hi" (PStr "c1") eq_refl).
Defined.

End MoreRuns.

(** * Runs at the edges *)

Section EdgeRuns.

Import Demo EdgeDemo.

(** Two events whose chat post is not answered with a 2xx and that do not
    end as the claim has it.  A text message when the chat endpoint
    answers with status 300 and a JSON object: nothing raises, the answer
    is replied and the session map is written.  An image message when the
    chat endpoint is down and LINE refuses the first reply: the generic
    apology does not reach the user, the file apology does. *)
Lemma failed_forward_not_as_claimed :
  (post_chat choosing_chat []
     (chat_call choosing_chat "hi" "U1" (PStr "") PNone)
   = Some {| status_code := 300;
             json := Some (PDict [("answer", PStr "pick one");
                                  ("conversation_id", PStr "c9")]) |}
   /\ log (snd (dispatch choosing_chat
                  (MessageEvent "U1" "r1" (TextMessageContent "m1" "hi"))
                  initial))
      = [ PostChat (chat_call choosing_chat "hi" "U1" (PStr "") PNone)
            (Some {| status_code := 300;
                     json := Some (PDict [("answer", PStr "pick one");
                                          ("conversation_id", PStr "c9")]) |});
          SessionWrite "U1" (PStr "c9");
          Reply "r1" "pick one" true ]
   /\ "pick one" <> APOLOGY
   /\ user_sessions (snd (dispatch choosing_chat
                            (MessageEvent "U1" "r1"
                               (TextMessageContent "m1" "hi"))
                            initial)) !! "U1" = Some (PStr "c9")
   /\ user_sessions initial !! "U1" = None)
  /\ (log (snd (dispatch hesitant
                  (MessageEvent "U1" "r1" (ImageMessageContent "m1"))
                  initial))
      = [ GetContent "m1" (Some []);
          PostUpload (upload_call hesitant [] "m1.jpg" "U1")
            (ok [("id", PStr "file-1")]);
          PostChat (chat_call hesitant "[image uploaded]" "U1" (PStr "")
                      (PStr "file-1"))
            (Some {| status_code := 503; json := None |});
          Reply "r1" APOLOGY false;
          Reply "r1" FILE_APOLOGY true ]
      /\ FILE_APOLOGY <> APOLOGY).
Proof.
  split.
  - split; [reflexivity|]. split; [reflexivity|]. split; [discriminate|].
    split; vm_compute; reflexivity.
  - split; [vm_compute; reflexivity|discriminate].
Qed.

(** A text message to the backend that numbers its conversations: the
    number is stored, and a number is not a string. *)
Lemma numeric_token_is_stored :
  post_chat numbering [] (chat_call numbering "hi" "U1" (PStr "") PNone)
  = ok [("answer", PStr "hello"); ("conversation_id", PInt 7)]
  /\ user_sessions (serve numbering [signed "hi"] initial) !! "U1"
     = Some (PInt 7)
  /\ (forall token : string, PInt 7 <> PStr token).
Proof.
  split; [reflexivity|]. split; [vm_compute; reflexivity|discriminate].
Qed.

(** A signed text message when LINE refuses the answer and takes the
    apology: a reply was refused, and the route still returns 'OK'. *)
Lemma refused_answer_is_still_ok :
  log (snd (callback (with_chat (post_chat calm) hesitant) (signed "hi")
              initial))
  = [ PostChat (chat_call hesitant "hi" "U1" (PStr "") PNone)
        (ok [("answer", PStr "hello"); ("conversation_id", PStr "c1")]);
      SessionWrite "U1" (PStr "c1");
      Reply "r1" "hello" false;
      Reply "r1" APOLOGY true ]
  /\ fst (callback (with_chat (post_chat calm) hesitant) (signed "hi")
            initial) = Return "OK".
Proof. split; vm_compute; reflexivity. Qed.

End EdgeRuns.
